(** * liblc3.cpp: the JNI bridge between Java byte/float arrays and the
      LC3 codec and the RNNoise denoiser.

    The three entry points of
    [SmartGlassesManager/src/main/cpp/liblc3/liblc3.cpp] are embedded as
    functions over an explicit Java heap, native buffers with checked
    accesses, and a log of the calls made into the two external libraries.
    The libraries themselves ([include/lc3.h], [include/rnnoise.h]) are
    interfaces: type classes whose methods the bridge calls. *)

From Stdlib Require Import ZArith Lia.
From Stdlib.Init Require Import Byte.
From stdpp Require Import base option list gmap.

Local Open Scope Z_scope.

(** ** Machine integers *)

Module MachineInt.

Definition INT_MAX : Z := 2147483647.

(** Conversion to a 32-bit [int] (two's complement wrap-around). *)
Definition to_int (z : Z) : Z := (z + 2147483648) `mod` 4294967296 - 2147483648.

(** Conversion to [uint16_t]. *)
Definition to_uint16 (z : Z) : Z := z `mod` 65536.

(** Conversion to [unsigned]. *)
Definition to_uint (z : Z) : Z := z `mod` 4294967296.


End MachineInt.
Import MachineInt.

(** ** Faults and the error monad *)

Inductive fault :=
  | OutOfBounds        (* a native access outside its block *)
  | NullPointer        (* an access through NULL, or a null reference *)
  | DivisionByZero
  | NegativeArraySize  (* NewByteArray with a negative length *)
  | ArrayIndexOutOfBounds
  | OutOfFuel.         (* the loop did not stop within the fuel given *)

Inductive result (A : Type) :=
  | Ok (a : A)
  | Err (f : fault).
Arguments Ok {A} a.
Arguments Err {A} f.

Global Instance result_ret : MRet result := λ A a, Ok a.
Global Instance result_bind : MBind result := λ A B k m,
  match m with
  | Ok a => k a
  | Err f => Err f
  end.

(** C's [/] on [int]: truncation toward zero, undefined on a zero divisor. *)
Definition int_div (a b : Z) : result Z :=
  if b =? 0 then Err DivisionByZero else Ok (a ÷ b).

(** ** Native memory *)

(** A pointer returned by [malloc] is NULL ([None]) or a block of bytes. *)
Abbreviation ptr := (option (list byte)).

Section Native.

(** The contents of memory that [malloc] hands out uninitialised. *)
Variable uninit : nat → byte.

(** [malloc(n)]: the [int] argument is converted to [size_t], so a negative
    [n] asks for more than the address space and yields NULL. *)
Definition malloc (n : Z) : ptr :=
  if 0 <=? n then Some (uninit <$> seq 0 (Z.to_nat n)) else None.

End Native.

Section Access.

Context {A : Type}.

(** Reading [len] elements at [buf + off], within the block. *)
Definition read_bytes (buf : list A) (off len : Z) : result (list A) :=
  if (0 <=? off) && (0 <=? len) && (off + len <=? Z.of_nat (length buf))
  then Ok (take (Z.to_nat len) (drop (Z.to_nat off) buf))
  else Err OutOfBounds.

(** Storing [data] at [buf + off], within the block. *)
Definition write_bytes (buf : list A) (off : Z) (data : list A)
  : result (list A) :=
  if (0 <=? off) && (off + Z.of_nat (length data) <=? Z.of_nat (length buf))
  then Ok (take (Z.to_nat off) buf ++ data
             ++ drop (Z.to_nat off + length data) buf)
  else Err OutOfBounds.

End Access.

Definition read_ptr (p : ptr) (off len : Z) : result (list byte) :=
  match p with
  | Some buf => read_bytes buf off len
  | None => Err NullPointer
  end.

Definition write_ptr (p : ptr) (off : Z) (data : list byte) : result ptr :=
  match p with
  | Some buf => buf' ← write_bytes buf off data; Ok (Some buf')
  | None => Err NullPointer
  end.

(** [memcpy(dst + off, src, n)] *)
Definition memcpy (dst : ptr) (off : Z) (src : ptr) (n : Z) : result ptr :=
  data ← read_ptr src 0 n; write_ptr dst off data.

(** [memset(p, 0, n)] *)
Definition memset0 (p : ptr) (n : Z) : result ptr :=
  if 0 <=? n then write_ptr p 0 (replicate (Z.to_nat n) x00)
  else Err OutOfBounds.

(** ** The Java heap seen through JNI *)

Abbreviation jarray := positive.

Section Jni.

Context {A : Type}.

(** [Get<T>ArrayElements]: the elements of the array, as a native buffer. *)
Definition GetArrayElements (h : gmap jarray (list A)) (a : jarray)
  : result (list A) :=
  match h !! a with
  | Some l => Ok l
  | None => Err NullPointer
  end.

Definition JNI_ABORT : Z := 2.

(** [Release<T>ArrayElements]: with mode 0 the native elements are copied
    back into the Java array; with [JNI_ABORT] the buffer is freed and the
    Java array is left as it was. *)
Definition ReleaseArrayElements (h : gmap jarray (list A)) (a : jarray)
    (elems : list A) (mode : Z) : gmap jarray (list A) :=
  if mode =? JNI_ABORT then h else <[a := elems]> h.

End Jni.

(** [NewByteArray(n)]: a fresh array of [n] zero bytes. *)
Definition NewByteArray (h : gmap jarray (list byte)) (n : Z)
  : result (jarray * gmap jarray (list byte)) :=
  if n <? 0 then Err NegativeArraySize
  else let r := fresh (dom h) in
       Ok (r, <[r := replicate (Z.to_nat n) x00]> h).

(** [SetByteArrayRegion(a, start, len, buf)] *)
Definition SetByteArrayRegion (h : gmap jarray (list byte)) (a : jarray)
    (start len : Z) (buf : ptr) : result (gmap jarray (list byte)) :=
  match h !! a with
  | None => Err NullPointer
  | Some arr =>
      if (0 <=? start) && (0 <=? len)
         && (start + len <=? Z.of_nat (length arr))
      then data ← read_ptr buf 0 len;
           Ok (<[a := take (Z.to_nat start) arr ++ data
                        ++ drop (Z.to_nat (start + len)) arr]> h)
      else Err ArrayIndexOutOfBounds
  end.

(** ** The LC3 codec library ([include/lc3.h]) *)

Inductive lc3_pcm_format :=
  | LC3_PCM_FORMAT_S16
  | LC3_PCM_FORMAT_S24
  | LC3_PCM_FORMAT_S24_3LE
  | LC3_PCM_FORMAT_FLOAT.

(** The functions of the library that the bridge calls. A codec call takes
    the bytes found at its input pointer and gives back its return code, the
    codec state it leaves behind and the bytes it stored through its output
    pointer (from the start of that buffer). *)
Class Lc3 := {
  lc3_decoder_t : Type;
  lc3_encoder_t : Type;
  lc3_frame_samples : Z → Z → Z;
  lc3_decoder_size : Z → Z → Z;
  lc3_encoder_size : Z → Z → Z;
  lc3_setup_decoder : Z → Z → Z → ptr → lc3_decoder_t;
  lc3_setup_encoder : Z → Z → Z → ptr → lc3_encoder_t;
  lc3_decode : lc3_decoder_t → list byte → Z → lc3_pcm_format → Z
               → Z * lc3_decoder_t * list byte;
  lc3_encode : lc3_encoder_t → lc3_pcm_format → list byte → Z → Z
               → Z * lc3_encoder_t * list byte;
}.

(** Calls into the codec library and the release of the codec memory, in the
    order in which they are made. The codec events carry the input offset
    [i] of the frame, the offset in the output array at which its result is
    put and the code the library returned. *)
Inductive event :=
  | EvSetupDecoder
  | EvDecode (i : Z) (offset : Z) (ret : Z)
  | EvFreeDecoder
  | EvSetupEncoder
  | EvEncode (i : Z) (offset : Z) (ret : Z)
  | EvFreeEncoder.

Global Instance event_eq_dec : EqDecision event.
Proof. solve_decision. Defined.

(** [for (int i = 0; i <= len - step; i += step) body], from the value of
    [i] given. *)
Fixpoint for_frames {S : Type} (fuel : nat) (len step : Z)
    (body : Z → S → result S) (i : Z) (s : S) : result S :=
  if i <=? to_int (len - step) then
    match fuel with
    | O => Err OutOfFuel
    | Datatypes.S fuel' =>
        s' ← body i s;
        for_frames fuel' len step body (to_int (i + step)) s'
    end
  else Ok s.

Section Bridge.

Context `{lib : Lc3}.
Variable uninit : nat → byte.

Definition dtUs : Z := 10000.
Definition srHz : Z := 16000.

(** *** decodeLC3 *)

Record decode_state := {
  ds_decoder : lc3_decoder_t;
  ds_outBuf : ptr;
  ds_outArray : ptr;
  ds_offset : Z;
  ds_log : list event;
}.

Definition sampleOfFrames : Z := to_uint16 (lc3_frame_samples dtUs srHz).
Definition bytesOfFrames : Z := to_uint16 (sampleOfFrames * 2).
Definition output_byte_count : Z := 20.

(** The body of the decoding loop, at input offset [i]. *)
Definition decode_frame (lc3Bytes : list byte) (i : Z) (s : decode_state)
  : result decode_state :=
  frame ← read_bytes lc3Bytes i output_byte_count;
  let '(ret, dec', pcm) :=
    lc3_decode (ds_decoder s) frame output_byte_count LC3_PCM_FORMAT_S16 1 in
  outBuf1 ← write_ptr (ds_outBuf s) 0 pcm;
  outArray' ← memcpy (ds_outArray s) (ds_offset s) outBuf1 bytesOfFrames;
  let offset' := to_int (ds_offset s + bytesOfFrames) in
  outBuf2 ← memset0 outBuf1 bytesOfFrames;
  Ok {| ds_decoder := dec'; ds_outBuf := outBuf2; ds_outArray := outArray';
        ds_offset := offset';
        ds_log := ds_log s ++ [EvDecode i (ds_offset s) ret] |}.

Definition decodeLC3 (h : gmap jarray (list byte)) (lc3Data : jarray)
  : result (jarray * gmap jarray (list byte) * list event) :=
  lc3Bytes ← GetArrayElements h lc3Data;
  let lc3Length := Z.of_nat (length lc3Bytes) in
  let outBuf := malloc uninit bytesOfFrames in
  q ← int_div lc3Length output_byte_count;
  let outSize := to_int (q * bytesOfFrames) in
  let outArray := malloc uninit outSize in
  let decodeSize := to_uint (lc3_decoder_size dtUs srHz) in
  let decMem := malloc uninit decodeSize in
  let lc3_decoder := lc3_setup_decoder dtUs srHz 0 decMem in
  s ← for_frames (length lc3Bytes) lc3Length output_byte_count
        (decode_frame lc3Bytes) 0
        {| ds_decoder := lc3_decoder; ds_outBuf := outBuf;
           ds_outArray := outArray; ds_offset := 0;
           ds_log := [EvSetupDecoder] |};
  '(resultArray, h1) ← NewByteArray h outSize;
  h2 ← SetByteArrayRegion h1 resultArray 0 outSize (ds_outArray s);
  let h3 := ReleaseArrayElements h2 lc3Data lc3Bytes JNI_ABORT in
  Ok (resultArray, h3, ds_log s ++ [EvFreeDecoder]).

(** *** encodeLC3 *)

Record encode_state := {
  es_encoder : lc3_encoder_t;
  es_encodedData : ptr;
  es_offset : Z;
  es_log : list event;
}.

Definition samplesPerFrame : Z := to_uint16 (lc3_frame_samples dtUs srHz).
Definition bytesPerFrame : Z := to_uint16 (samplesPerFrame * 2).
Definition encodedFrameSize : Z := 20.

(** The body of the encoding loop, at input offset [i]. [lc3_encode] reads
    one frame of 16-bit samples at stride 1 from [framePcm], that is two
    bytes for each of the samples of a frame, and stores the encoded
    frame at [encodedData + offset]. *)
Definition encode_frame (pcmBytes : list byte) (i : Z) (s : encode_state)
  : result encode_state :=
  framePcm ← read_bytes pcmBytes i (2 * lc3_frame_samples dtUs srHz);
  let '(ret, enc', data) :=
    lc3_encode (es_encoder s) LC3_PCM_FORMAT_S16 framePcm 1 encodedFrameSize in
  encodedData' ← write_ptr (es_encodedData s) (es_offset s) data;
  Ok {| es_encoder := enc'; es_encodedData := encodedData';
        es_offset := to_int (es_offset s + encodedFrameSize);
        es_log := es_log s ++ [EvEncode i (es_offset s) ret] |}.

Definition encodeLC3 (h : gmap jarray (list byte)) (pcmData : jarray)
  : result (jarray * gmap jarray (list byte) * list event) :=
  pcmBytes ← GetArrayElements h pcmData;
  let pcmLength := Z.of_nat (length pcmBytes) in
  q ← int_div pcmLength bytesPerFrame;
  let outputSize := to_int (q * encodedFrameSize) in
  let encodedData := malloc uninit outputSize in
  let encoderSize := to_uint (lc3_encoder_size dtUs srHz) in
  let encMem := malloc uninit encoderSize in
  let encoder := lc3_setup_encoder dtUs srHz srHz encMem in
  s ← for_frames (length pcmBytes) pcmLength bytesPerFrame
        (encode_frame pcmBytes) 0
        {| es_encoder := encoder; es_encodedData := encodedData;
           es_offset := 0; es_log := [EvSetupEncoder] |};
  '(resultArray, h1) ← NewByteArray h outputSize;
  h2 ← SetByteArrayRegion h1 resultArray 0 outputSize (es_encodedData s);
  let h3 := ReleaseArrayElements h2 pcmData pcmBytes JNI_ABORT in
  Ok (resultArray, h3, es_log s ++ [EvFreeEncoder]).

End Bridge.

(** ** The RNNoise library ([include/rnnoise.h]) and the denoise bridge *)

(** [rnnoise_process_frame(st, out, in)] reads [rnnoise_frame_size] samples
    at [in] and stores as many at [out]; as a function it maps the state and
    the samples read to the new state, the samples stored and the value it
    returns. *)
Class RNNoise := {
  DenoiseState : Type;
  jfloat : Type;
  rnnoise_frame_size : Z;
  rnnoise_create : DenoiseState;
  rnnoise_process_frame :
    DenoiseState → list jfloat → DenoiseState * list jfloat * jfloat;
}.

Abbreviation addr := positive.

(** A call into the denoise library, with its three arguments. *)
Inductive rn_event :=
  | EvProcessFrame (st : Z) (out inp : addr).

Section Denoise.

Context `{rn : RNNoise}.

(** The Java float arrays and the denoiser states that are alive, each
    state under the [jlong] that stands for its address. *)
Record world := {
  w_arrays : gmap jarray (list jfloat);
  w_states : gmap Z DenoiseState;
}.

(** The library call on native memory [m]: [out] and [inp] may be one and
    the same buffer. *)
Definition process_frame_at (m : gmap addr (list jfloat))
    (states : gmap Z DenoiseState) (st : Z) (out inp : addr)
  : result (gmap addr (list jfloat) * gmap Z DenoiseState) :=
  match states !! st, m !! inp with
  | Some s, Some ibuf =>
      x ← read_bytes ibuf 0 rnnoise_frame_size;
      let '(s', y, _) := rnnoise_process_frame s x in
      match m !! out with
      | Some obuf =>
          obuf' ← write_bytes obuf 0 y;
          Ok (<[out := obuf']> m, <[st := s']> states)
      | None => Err NullPointer
      end
  | _, _ => Err NullPointer
  end.

(** The address of the buffer that [GetFloatArrayElements] hands out. *)
Definition inputArray : addr := 1%positive.

(** [rnNoise]: the library calls made, and the array returned with the
    world it leaves, or the fault of the call. *)
Definition rnNoise (w : world) (st : Z) (input : jarray)
  : list rn_event * result (jarray * world) :=
  match GetArrayElements (w_arrays w) input with
  | Err f => ([], Err f)
  | Ok elems =>
      let m : gmap addr (list jfloat) := {[ inputArray := elems ]} in
      ([EvProcessFrame st inputArray inputArray],
       '(m', states') ← process_frame_at m (w_states w) st inputArray inputArray;
       match m' !! inputArray with
       | Some elems' =>
           Ok (input,
               {| w_arrays := ReleaseArrayElements (w_arrays w) input elems'
                                0;
                  w_states := states' |})
       | None => Err NullPointer
       end)
  end.

Definition createRNNoiseState (w : world) : Z * world :=
  let st := fresh (dom (w_states w)) in
  (st, {| w_arrays := w_arrays w;
          w_states := <[st := rnnoise_create]> (w_states w) |}).

Definition destroyRNNoiseState (w : world) (st : Z) : world :=
  {| w_arrays := w_arrays w; w_states := delete st (w_states w) |}.

End Denoise.

(** ** The streams frame by frame *)

(** What section 4.3 of the specification says a stream call computes: frame
    [k] is the [k]-th input slice, given to the codec in the state the
    frames before it left, and its result is the [k]-th output slice. *)
Section Reference.

Context `{lib : Lc3}.
Variable uninit : nat → byte.

(** The [k]-th slice of [size] elements of [l]. *)
Definition slice {A : Type} (l : list A) (size k : nat) : list A :=
  take size (drop (k * size) l).

(** A buffer after [data] has been stored at its start. *)
Definition overlay {A : Type} (data buf : list A) : list A :=
  data ++ drop (length data) buf.

Definition frame_count (len size : Z) : nat := Z.to_nat (len / size).

Definition fresh_decoder : lc3_decoder_t :=
  lc3_setup_decoder dtUs srHz 0
    (malloc uninit (to_uint (lc3_decoder_size dtUs srHz))).

(** The decoder state in which frame [k] is decoded. *)
Fixpoint decoder_before (input : list byte) (k : nat) : lc3_decoder_t :=
  match k with
  | O => fresh_decoder
  | S k' =>
      (lc3_decode (decoder_before input k') (slice input 20 k')
         output_byte_count LC3_PCM_FORMAT_S16 1).1.2
  end.

Definition decode_call (input : list byte) (k : nat)
  : Z * lc3_decoder_t * list byte :=
  lc3_decode (decoder_before input k) (slice input 20 k)
    output_byte_count LC3_PCM_FORMAT_S16 1.

(** The frame buffer [outBuf] when frame [k] is decoded into it: as
    [malloc] left it for the first frame, cleared after every frame. *)
Definition scratch_before (k : nat) : list byte :=
  match k with
  | O => uninit <$> seq 0 (Z.to_nat bytesOfFrames)
  | S _ => replicate (Z.to_nat bytesOfFrames) x00
  end.

Definition decoded_frame (input : list byte) (k : nat) : list byte :=
  overlay (decode_call input k).2 (scratch_before k).

Definition decode_event (input : list byte) (k : nat) : event :=
  EvDecode (Z.of_nat k * output_byte_count) (Z.of_nat k * bytesOfFrames)
    (decode_call input k).1.1.

Definition decode_stream (input : list byte) : list byte :=
  mjoin (decoded_frame input
           <$> seq 0 (frame_count (Z.of_nat (length input)) output_byte_count)).

Definition fresh_encoder : lc3_encoder_t :=
  lc3_setup_encoder dtUs srHz srHz
    (malloc uninit (to_uint (lc3_encoder_size dtUs srHz))).

(** The encoder state in which frame [k] is encoded. *)
Fixpoint encoder_before (input : list byte) (k : nat) : lc3_encoder_t :=
  match k with
  | O => fresh_encoder
  | S k' =>
      (lc3_encode (encoder_before input k') LC3_PCM_FORMAT_S16
         (slice input (Z.to_nat bytesPerFrame) k') 1 encodedFrameSize).1.2
  end.

Definition encode_call (input : list byte) (k : nat)
  : Z * lc3_encoder_t * list byte :=
  lc3_encode (encoder_before input k) LC3_PCM_FORMAT_S16
    (slice input (Z.to_nat bytesPerFrame) k) 1 encodedFrameSize.

(** Frame [k] is encoded straight into its place in [encodedData], which
    holds what [malloc] left there. *)
Definition encoded_frame (input : list byte) (k : nat) : list byte :=
  overlay (encode_call input k).2 (uninit <$> seq (k * 20) 20).

Definition encode_event (input : list byte) (k : nat) : event :=
  EvEncode (Z.of_nat k * bytesPerFrame) (Z.of_nat k * encodedFrameSize)
    (encode_call input k).1.1.

Definition encode_stream (input : list byte) : list byte :=
  mjoin (encoded_frame input
           <$> seq 0 (frame_count (Z.of_nat (length input)) bytesPerFrame)).

End Reference.

(** What the bridge relies on from the codec library: the frame of the fixed
    geometry has a number of samples whose byte count fits [uint16_t], a
    decoded frame takes at most two bytes per sample, and an encoded frame
    at most the [nbytes] asked for. A call that fails stores nothing. *)
Class Lc3Contract (lib : Lc3) : Prop := {
  frame_samples_fit : 0 < lc3_frame_samples dtUs srHz < 32768;
  decode_stores : ∀ dec frame,
    Z.of_nat (length (lc3_decode dec frame output_byte_count
                        LC3_PCM_FORMAT_S16 1).2)
    ≤ 2 * lc3_frame_samples dtUs srHz;
  encode_stores : ∀ enc pcm,
    Z.of_nat (length (lc3_encode enc LC3_PCM_FORMAT_S16 pcm 1
                        encodedFrameSize).2)
    ≤ encodedFrameSize;
}.

(** ** Two small codecs to run the bridge on *)

Module Samples.

(** Frames of 160 samples; a decoded frame repeats the first byte of the
    encoded one, an encoded frame the first byte of the samples; the state
    counts the frames. *)
Definition counting_codec : Lc3 := {|
  lc3_decoder_t := Z;
  lc3_encoder_t := Z;
  lc3_frame_samples dt sr := dt * sr / 1000000;
  lc3_decoder_size _ _ := 64;
  lc3_encoder_size _ _ := 64;
  lc3_setup_decoder _ _ _ _ := 0;
  lc3_setup_encoder _ _ _ _ := 0;
  lc3_decode dec frame nbytes _ _ :=
    (0, dec + 1, replicate 320 (default x00 (head frame)));
  lc3_encode enc _ pcm _ nbytes :=
    (0, enc + 1, replicate (Z.to_nat nbytes) (default x00 (head pcm)));
|}.

(** The same geometry, with every codec call failing: it returns -1 and
    stores nothing. *)
Definition failing_codec : Lc3 := {|
  lc3_decoder_t := Z;
  lc3_encoder_t := Z;
  lc3_frame_samples dt sr := dt * sr / 1000000;
  lc3_decoder_size _ _ := 64;
  lc3_encoder_size _ _ := 64;
  lc3_setup_decoder _ _ _ _ := 0;
  lc3_setup_encoder _ _ _ _ := 0;
  lc3_decode dec _ _ _ _ := (-1, dec, []);
  lc3_encode enc _ _ _ _ := (-1, enc, []);
|}.

(** As the counting codec, with the number of frames its state has seen
    as the code a call returns: the log of a stream shows the state each
    call was made in. *)
Definition numbering_codec : Lc3 := {|
  lc3_decoder_t := Z;
  lc3_encoder_t := Z;
  lc3_frame_samples dt sr := dt * sr / 1000000;
  lc3_decoder_size _ _ := 64;
  lc3_encoder_size _ _ := 64;
  lc3_setup_decoder _ _ _ _ := 0;
  lc3_setup_encoder _ _ _ _ := 0;
  lc3_decode dec frame nbytes _ _ :=
    (dec, dec + 1, replicate 320 (default x00 (head frame)));
  lc3_encode enc _ pcm _ nbytes :=
    (enc, enc + 1, replicate (Z.to_nat nbytes) (default x00 (head pcm)));
|}.

(** Uninitialised memory reads as [0xaa] here. *)
Definition stale : nat → byte := λ _, xaa.

(** Or as [0x55], at another time. *)
Definition stale' : nat → byte := λ _, x55.

(** Three encoded frames and five bytes more; two frames of samples and
    sixty bytes more; each in a heap of its own, with a second array of 15
    bytes. *)
Definition three_frames_and_five : list byte :=
  replicate 20 x01 ++ replicate 20 x02 ++ replicate 20 x03 ++ replicate 5 x04.
Definition two_frames_and_sixty : list byte :=
  replicate 320 x01 ++ replicate 320 x02 ++ replicate 60 x03.
Definition next : jarray := 9%positive.
Definition heap65 : gmap jarray (list byte) :=
  {[ 5%positive := three_frames_and_five; next := replicate 15 x09 ]}.
Definition heap700 : gmap jarray (list byte) :=
  {[ 5%positive := two_frames_and_sixty; next := replicate 15 x09 ]}.

(** A Java heap with one byte array, of one encoded frame and five bytes
    more. *)
Definition lc3Data : jarray := 5%positive.
Definition one_frame_and_five : list byte := replicate 25 x01.
Definition heap25 : gmap jarray (list byte) :=
  {[ lc3Data := one_frame_and_five ]}.

(** A denoiser on frames of 480 samples (samples as integers) that
    silences what it is given. *)
Definition muting_denoiser : RNNoise := {|
  DenoiseState := Z;
  jfloat := Z;
  rnnoise_frame_size := 480;
  rnnoise_create := 0;
  rnnoise_process_frame st x := (st + 1, (λ _, 0) <$> x, 0);
|}.

(** Two worlds for that denoiser, with one handle and one float array: an
    array of three samples, and one of 481. *)
Definition handle : Z := 77.
Definition samples : jarray := 3%positive.
Definition short_world : @world muting_denoiser :=
  {| w_arrays := {[ samples := [1; 2; 3] ]}; w_states := {[ handle := 0 ]} |}.
Definition long_world : @world muting_denoiser :=
  {| w_arrays := {[ samples := replicate 481 7 ]};
     w_states := {[ handle := 0 ]} |}.
Definition full_world : @world muting_denoiser :=
  {| w_arrays := {[ samples := replicate 480 7 ]};
     w_states := {[ handle := 0 ]} |}.

End Samples.

(** ** Loop invariants *)

Section Invariants.

Context `{lib : Lc3}.
Variable uninit : nat → byte.
Variable input : list byte.

(** The state of [decodeLC3] before frame [k]: the decoder has seen the
    frames before [k], the frame buffer is as the last round left it, the
    output holds the frames decoded so far, then what [malloc] left. *)
Definition decode_inv (k : nat) (s : decode_state) : Prop :=
  ds_decoder s = decoder_before uninit input k
  ∧ ds_outBuf s = Some (scratch_before uninit k)
  ∧ ds_outArray s
    = Some (mjoin (decoded_frame uninit input <$> seq 0 k)
            ++ drop (k * Z.to_nat bytesOfFrames)
                 (uninit <$> seq 0
                    (frame_count (Z.of_nat (length input)) output_byte_count
                     * Z.to_nat bytesOfFrames)))
  ∧ ds_offset s = Z.of_nat k * bytesOfFrames
  ∧ ds_log s = EvSetupDecoder :: (decode_event uninit input <$> seq 0 k).

(** The state of [encodeLC3] before frame [k]. *)
Definition encode_inv (k : nat) (s : encode_state) : Prop :=
  es_encoder s = encoder_before uninit input k
  ∧ es_encodedData s
    = Some (mjoin (encoded_frame uninit input <$> seq 0 k)
            ++ drop (k * 20)
                 (uninit <$> seq 0
                    (frame_count (Z.of_nat (length input)) bytesPerFrame
                     * 20)))
  ∧ es_offset s = Z.of_nat k * encodedFrameSize
  ∧ es_log s = EvSetupEncoder :: (encode_event uninit input <$> seq 0 k).

End Invariants.

(** * Properties *)

(** ** Machine integers and checked accesses *)

Lemma to_int_id z : -2147483648 ≤ z ≤ INT_MAX → to_int z = z.
Proof.
  unfold to_int, INT_MAX. intros Hz.
  rewrite Z.mod_small by lia. lia.
Qed.

Lemma to_uint16_id z : 0 ≤ z < 65536 → to_uint16 z = z.
Proof. unfold to_uint16. intros Hz. apply Z.mod_small. lia. Qed.

(** Bounds checks that hold: each [a <=? b] of the goal is decided by [lia]. *)
Ltac pass_checks :=
  repeat match goal with
    | |- context [Z.leb ?a ?b] =>
        destruct (Z.leb_spec a b); [|exfalso; lia]
    end;
  cbn [andb].

Section AccessFacts.

Context {A : Type}.
Implicit Types l buf data pre rest : list A.

Lemma overlay_length data buf :
  (length data ≤ length buf)%nat → length (overlay data buf) = length buf.
Proof.
  intros Hl. unfold overlay. rewrite length_app, length_drop. lia.
Qed.

Lemma overlay_full data buf :
  length data = length buf → overlay data buf = data.
Proof.
  intros Hl. unfold overlay. rewrite drop_ge by lia. apply app_nil_r.
Qed.

Lemma read_bytes_slice l (size k : nat) :
  (k * size + size ≤ length l)%nat →
  read_bytes l (Z.of_nat k * Z.of_nat size) (Z.of_nat size)
  = Ok (slice l size k).
Proof.
  intros Hl. unfold read_bytes, slice. pass_checks.
  replace (Z.of_nat k * Z.of_nat size) with (Z.of_nat (k * size)) by lia.
  by rewrite !Nat2Z.id.
Qed.

Lemma read_bytes_all l (len : Z) :
  len = Z.of_nat (length l) → read_bytes l 0 len = Ok l.
Proof.
  intros ->. unfold read_bytes. pass_checks.
  rewrite Nat2Z.id. change (Z.to_nat 0) with 0%nat.
  rewrite drop_0, take_ge by lia. reflexivity.
Qed.

Lemma write_bytes_start data buf :
  (length data ≤ length buf)%nat →
  write_bytes buf 0 data = Ok (overlay data buf).
Proof. intros Hl. unfold write_bytes, overlay. by pass_checks. Qed.

Lemma write_bytes_append pre data rest (off : Z) :
  off = Z.of_nat (length pre) → (length data ≤ length rest)%nat →
  write_bytes (pre ++ rest) off data
  = Ok (pre ++ data ++ drop (length data) rest).
Proof.
  intros -> Hl. unfold write_bytes. rewrite length_app. pass_checks.
  rewrite Nat2Z.id, take_app_length.
  by rewrite <- drop_drop, drop_app_length.
Qed.

End AccessFacts.

(** ** The loop *)

Lemma frame_count_spec (len step : Z) (k : nat) :
  0 < step → 0 ≤ len →
  (Z.of_nat k + 1) * step ≤ len ↔ (k < frame_count len step)%nat.
Proof.
  intros Hstep Hlen. unfold frame_count.
  pose proof (Z.mul_div_le len step Hstep).
  pose proof (Z.div_pos len step Hlen Hstep).
  split; intros Hk.
  - assert (Z.of_nat k + 1 ≤ len / step)
      by (apply Z.div_le_lower_bound; lia).
    lia.
  - assert (Z.of_nat k + 1 ≤ len / step) by lia. nia.
Qed.

(** The loop runs its body on the offsets [0], [step], [2 * step], ... of
    the whole frames of [len] bytes, in this order, and then stops: an
    invariant [P k] of the state before frame [k] holds of the final state at
    the frame count. *)
Lemma for_frames_inv {S : Type} (P : nat → S → Prop) (len step : Z)
    (body : Z → S → result S) :
  0 < step ≤ 65535 → 0 ≤ len ≤ INT_MAX →
  (∀ (k : nat) s, (k < frame_count len step)%nat → P k s →
     ∃ s', body (Z.of_nat k * step) s = Ok s' ∧ P (Datatypes.S k) s') →
  ∀ (fuel k : nat) s,
    (k ≤ frame_count len step)%nat → (frame_count len step - k ≤ fuel)%nat →
    P k s →
    ∃ s', for_frames fuel len step body (Z.of_nat k * step) s = Ok s'
          ∧ P (frame_count len step) s'.
Proof.
  intros Hstep Hlen Hbody. unfold INT_MAX in Hlen.
  induction fuel as [|fuel IH]; intros k s Hk Hfuel HP; simpl;
    rewrite (to_int_id (len - step)) by (unfold INT_MAX; lia);
    pose proof (frame_count_spec len step k ltac:(lia) ltac:(lia)) as Hfc;
    destruct (Z.leb_spec (Z.of_nat k * step) (len - step)) as [Hgo|Hstop].
  - lia.
  - assert (k = frame_count len step) as <- by lia. eauto.
  - assert (k < frame_count len step)%nat as Hlt by lia.
    destruct (Hbody k s Hlt HP) as (s' & -> & HP'). simpl.
    rewrite to_int_id by (unfold INT_MAX; lia).
    replace (Z.of_nat k * step + step) with (Z.of_nat (Datatypes.S k) * step)
      by lia.
    apply IH; [lia..|done].
  - assert (k = frame_count len step) as <- by lia. eauto.
Qed.

(** ** Frames side by side *)

Lemma frames_length {A : Type} (f : nat → list A) (c k : nat) :
  (∀ j, (j < k)%nat → length (f j) = c) →
  length (mjoin (f <$> seq 0 k)) = (k * c)%nat.
Proof.
  induction k as [|k IH]; intros Hf; [done|].
  rewrite seq_S, fmap_app, join_app, length_app, IH by (intros; apply Hf; lia).
  simpl. rewrite length_app, Hf by lia. simpl. lia.
Qed.

Lemma frames_snoc {A : Type} (f : nat → list A) (k : nat) :
  mjoin (f <$> seq 0 (S k)) = mjoin (f <$> seq 0 k) ++ f k.
Proof.
  rewrite seq_S, fmap_app, join_app. simpl. by rewrite app_nil_r.
Qed.

(** The [k]-th slice of [c] elements of frames put side by side is the
    [k]-th frame. *)
Lemma frames_slice {A : Type} (f : nat → list A) (c n k : nat) :
  (∀ j, (j < n)%nat → length (f j) = c) → (k < n)%nat →
  slice (mjoin (f <$> seq 0 n)) c k = f k.
Proof.
  intros Hf. induction n as [|n IH]; intros Hk; [lia|].
  rewrite frames_snoc. unfold slice in *.
  pose proof (frames_length f c n ltac:(intros; apply Hf; lia)) as Hlen.
  destruct (decide (k = n)) as [->|Hne].
  - rewrite <- Hlen, drop_app_length, take_ge by (rewrite Hf; lia). done.
  - rewrite drop_app_le by nia.
    rewrite take_app_le by (rewrite length_drop; nia).
    apply IH; [intros; apply Hf|]; lia.
Qed.

(** What [malloc] left, cut at frame [k]. *)
Lemma uninit_drop (uninit : nat → byte) (c n k : nat) :
  (k < n)%nat →
  drop (k * c) (uninit <$> seq 0 (n * c))
  = (uninit <$> seq (k * c) c) ++ drop (S k * c) (uninit <$> seq 0 (n * c)).
Proof.
  intros Hk.
  rewrite <- (take_drop c (drop (k * c) (uninit <$> seq 0 (n * c)))) at 1.
  rewrite drop_drop. f_equal; [|f_equal; lia].
  rewrite <- fmap_drop, <- fmap_take, drop_seq, take_seq. simpl.
  f_equal. f_equal. nia.
Qed.

(** ** Geometry *)

Section Geometry.

Context `{lib : Lc3} {ok : Lc3Contract lib}.

Lemma sampleOfFrames_eq : sampleOfFrames = lc3_frame_samples dtUs srHz.
Proof.
  unfold sampleOfFrames. pose proof frame_samples_fit.
  apply to_uint16_id. lia.
Qed.

Lemma bytesOfFrames_eq : bytesOfFrames = 2 * lc3_frame_samples dtUs srHz.
Proof.
  unfold bytesOfFrames. rewrite sampleOfFrames_eq.
  pose proof frame_samples_fit. rewrite to_uint16_id; lia.
Qed.

Lemma bytesPerFrame_eq : bytesPerFrame = 2 * lc3_frame_samples dtUs srHz.
Proof. apply bytesOfFrames_eq. Qed.

Lemma bytesOfFrames_range : 0 < bytesOfFrames ≤ 65535.
Proof. rewrite bytesOfFrames_eq. pose proof frame_samples_fit. lia. Qed.

Lemma bytesPerFrame_range : 0 < bytesPerFrame ≤ 65535.
Proof. apply bytesOfFrames_range. Qed.

End Geometry.

(** ** The decoding loop *)

Section DecodeLoop.

Context `{lib : Lc3} {ok : Lc3Contract lib}.
Variable uninit : nat → byte.
Variable input : list byte.

Let n := frame_count (Z.of_nat (length input)) output_byte_count.
Let B := Z.to_nat bytesOfFrames.

Lemma scratch_before_length k : length (scratch_before uninit k) = B.
Proof.
  destruct k; simpl.
  - by rewrite length_fmap, length_seq.
  - by rewrite length_replicate.
Qed.

Lemma decode_call_length k :
  (length (decode_call uninit input k).2 ≤ B)%nat.
Proof.
  unfold decode_call, B. rewrite bytesOfFrames_eq.
  pose proof (decode_stores (decoder_before uninit input k)
                (slice input 20 k)).
  lia.
Qed.

Lemma decoded_frame_length k : length (decoded_frame uninit input k) = B.
Proof.
  unfold decoded_frame. rewrite overlay_length; rewrite scratch_before_length;
    [done|apply decode_call_length].
Qed.

Lemma decode_frame_step (k : nat) (s : decode_state) :
  Z.of_nat n * bytesOfFrames ≤ INT_MAX →
  (k < n)%nat → decode_inv uninit input k s →
  ∃ s', decode_frame input (Z.of_nat k * output_byte_count) s = Ok s'
        ∧ decode_inv uninit input (S k) s'.
Proof.
  intros Hfit Hk (Hdec & Hbuf & Harr & Hoff & Hlog).
  pose proof bytesOfFrames_range as HB.
  assert (k * 20 + 20 ≤ length input)%nat as Hin.
  { apply frame_count_spec in Hk; unfold output_byte_count in *; lia. }
  unfold decode_frame.
  pose proof (read_bytes_slice input 20 k Hin) as Hread.
  change (Z.of_nat 20) with output_byte_count in Hread.
  rewrite Hread. simpl. rewrite Hdec.
  fold (decode_call uninit input k).
  pose proof (decode_call_length k) as Hpcm.
  destruct (decode_call uninit input k) as [[ret dec'] pcm] eqn:Hcall.
  simpl in Hpcm.
  rewrite Hbuf. simpl.
  rewrite write_bytes_start by (by rewrite scratch_before_length). simpl.
  assert (overlay pcm (scratch_before uninit k)
          = decoded_frame uninit input k) as Hframe.
  { unfold decoded_frame. by rewrite Hcall. }
  rewrite Hframe.
  pose proof (decoded_frame_length k) as Hflen.
  unfold memcpy. simpl.
  rewrite read_bytes_all by (rewrite Hflen; unfold B; lia). simpl.
  rewrite Harr, Hoff. simpl.
  pose proof (frames_length (decoded_frame uninit input) B k
                (λ j _, decoded_frame_length j)) as Hpre.
  fold n. fold B.
  rewrite write_bytes_append
    by (rewrite ?length_drop, ?length_fmap, ?length_seq, ?Hflen, ?Hpre;
        unfold B; nia).
  simpl. unfold memset0. pass_checks. simpl. fold B.
  rewrite write_bytes_start
    by (by rewrite length_replicate, decoded_frame_length).
  simpl. rewrite overlay_full
    by (by rewrite length_replicate, decoded_frame_length).
  eexists. split; [reflexivity|].
  unfold decode_inv.
  cbn [ds_decoder ds_outBuf ds_outArray ds_offset ds_log]. fold n. fold B.
  split_and!.
  - change (dec' = (decode_call uninit input k).1.2). by rewrite Hcall.
  - done.
  - rewrite frames_snoc, <- app_assoc, drop_drop, Hflen.
    by replace (k * B + B)%nat with (S k * B)%nat by lia.
  - rewrite to_int_id by (unfold INT_MAX in *; nia). lia.
  - rewrite Hlog, seq_S, fmap_app. simpl.
    unfold decode_event at 3. by rewrite Hcall.
Qed.

End DecodeLoop.

(** ** decodeLC3, from the array given to the array returned *)

Section DecodeRun.

Context `{lib : Lc3} {ok : Lc3Contract lib}.
Variable uninit : nat → byte.

Lemma malloc_nonneg (size : Z) :
  0 ≤ size → malloc uninit size = Some (uninit <$> seq 0 (Z.to_nat size)).
Proof. intros Hs. unfold malloc. by pass_checks. Qed.

Lemma decode_stream_length (input : list byte) :
  Z.of_nat (length (decode_stream uninit input))
  = Z.of_nat (length input) / output_byte_count * bytesOfFrames.
Proof.
  unfold decode_stream.
  rewrite (frames_length _ (Z.to_nat bytesOfFrames))
    by (intros; apply decoded_frame_length).
  pose proof bytesOfFrames_range. unfold frame_count.
  assert (0 ≤ Z.of_nat (length input) / output_byte_count)
    by (apply Z.div_pos; unfold output_byte_count; lia).
  lia.
Qed.

(** The array made by [NewByteArray] and filled by [SetByteArrayRegion]. *)
Lemma new_array_filled (h : gmap jarray (list byte)) (size : Z)
    (data : list byte) :
  size = Z.of_nat (length data) →
  NewByteArray h size
    ≫= (λ '(resultArray, h1),
          SetByteArrayRegion h1 resultArray 0 size (Some data)
            ≫= λ h2, Ok (resultArray, h2))
  = Ok (fresh (dom h), <[fresh (dom h) := data]> h).
Proof.
  intros ->. unfold NewByteArray.
  destruct (Z.ltb_spec (Z.of_nat (length data)) 0); [lia|]. simpl.
  unfold SetByteArrayRegion. rewrite lookup_insert_eq.
  rewrite length_replicate, Nat2Z.id. pass_checks.
  unfold read_ptr. rewrite read_bytes_all by done. simpl.
  rewrite insert_insert_eq. do 3 f_equal.
  rewrite drop_ge by (rewrite length_replicate; lia).
  apply app_nil_r.
Qed.

Lemma decodeLC3_run (h : gmap jarray (list byte)) (lc3Data : jarray)
    (input : list byte) :
  h !! lc3Data = Some input →
  Z.of_nat (length input) ≤ INT_MAX →
  Z.of_nat (length input) / output_byte_count * bytesOfFrames ≤ INT_MAX →
  decodeLC3 uninit h lc3Data
  = Ok (fresh (dom h),
        <[fresh (dom h) := decode_stream uninit input]> h,
        EvSetupDecoder
          :: (decode_event uninit input
                <$> seq 0 (frame_count (Z.of_nat (length input))
                             output_byte_count))
          ++ [EvFreeDecoder]).
Proof.
  intros Hin Hlen Hfit.
  pose proof bytesOfFrames_range as HB.
  set (n := frame_count (Z.of_nat (length input)) output_byte_count).
  assert (0 ≤ Z.of_nat (length input) / output_byte_count) as Hq
    by (apply Z.div_pos; unfold output_byte_count; lia).
  assert (Z.of_nat (length input) / output_byte_count = Z.of_nat n) as Hn
    by (unfold n, frame_count; lia).
  unfold decodeLC3, GetArrayElements. rewrite Hin. simpl.
  unfold int_div. change (output_byte_count =? 0) with false. simpl.
  rewrite Z.quot_div_nonneg by (unfold output_byte_count; lia).
  rewrite Hn in *. rewrite to_int_id by (unfold INT_MAX in *; lia).
  pose proof Hfit as Hfit'. unfold n in Hfit'.
  destruct (for_frames_inv (decode_inv uninit input)
              (Z.of_nat (length input)) output_byte_count
              (decode_frame input)
              ltac:(unfold output_byte_count; lia) ltac:(lia)
              (λ k s Hk, decode_frame_step uninit input k s Hfit' Hk)
              (length input) 0%nat
              {| ds_decoder := fresh_decoder uninit;
                 ds_outBuf := malloc uninit bytesOfFrames;
                 ds_outArray := malloc uninit (Z.of_nat n * bytesOfFrames);
                 ds_offset := 0; ds_log := [EvSetupDecoder] |})
    as (s' & Hloop & Hdec & Hbuf & Harr & Hoff & Hlog).
  - lia.
  - fold n. pose proof (Z.mul_div_le (Z.of_nat (length input))
                          output_byte_count).
    unfold output_byte_count in *. lia.
  - unfold decode_inv. simpl. rewrite !malloc_nonneg by lia.
    fold n. split_and!; try done.
    rewrite drop_0. do 3 f_equal. lia.
  - change (Z.of_nat 0 * output_byte_count) with 0 in Hloop.
    unfold fresh_decoder in Hloop. rewrite Hloop. simpl.
    fold n in Harr, Hlog. rewrite Harr, Hlog.
    rewrite drop_ge by (rewrite length_fmap, length_seq; lia).
    rewrite app_nil_r. fold (decode_stream uninit input).
    pose proof (new_array_filled h (Z.of_nat n * bytesOfFrames)
                  (decode_stream uninit input)) as Hnew.
    rewrite decode_stream_length, Hn in Hnew. specialize (Hnew eq_refl).
    destruct (NewByteArray h (Z.of_nat n * bytesOfFrames))
      as [[resultArray h1]|] eqn:Hna; simpl in Hnew; [|done].
    simpl.
    destruct (SetByteArrayRegion h1 resultArray 0 _ _) as [h2|];
      simpl in Hnew; [|done].
    simpl. by simplify_eq.
Qed.

End DecodeRun.

(** ** The encoding loop and encodeLC3 *)

Section EncodeRun.

Context `{lib : Lc3} {ok : Lc3Contract lib}.
Variable uninit : nat → byte.
Variable input : list byte.

Let n := frame_count (Z.of_nat (length input)) bytesPerFrame.

Lemma encode_call_length k :
  (length (encode_call uninit input k).2 ≤ 20)%nat.
Proof.
  unfold encode_call.
  pose proof (encode_stores (encoder_before uninit input k)
                (slice input (Z.to_nat bytesPerFrame) k)).
  unfold encodedFrameSize in *. lia.
Qed.

Lemma encoded_frame_length k : length (encoded_frame uninit input k) = 20%nat.
Proof.
  unfold encoded_frame.
  rewrite overlay_length; rewrite length_fmap, length_seq;
    [done|apply encode_call_length].
Qed.

Lemma encode_frame_step (k : nat) (s : encode_state) :
  Z.of_nat n * encodedFrameSize ≤ INT_MAX →
  (k < n)%nat → encode_inv uninit input k s →
  ∃ s', encode_frame input (Z.of_nat k * bytesPerFrame) s = Ok s'
        ∧ encode_inv uninit input (S k) s'.
Proof.
  intros Hfit Hk (Henc & Hdata & Hoff & Hlog).
  pose proof bytesPerFrame_range as HB.
  assert (k * Z.to_nat bytesPerFrame + Z.to_nat bytesPerFrame
          ≤ length input)%nat as Hin.
  { apply frame_count_spec in Hk; [|lia..].
    rewrite <- (Z2Nat.id bytesPerFrame) in Hk by lia. lia. }
  unfold encode_frame.
  pose proof (read_bytes_slice input (Z.to_nat bytesPerFrame) k Hin) as Hread.
  rewrite Z2Nat.id in Hread by lia.
  rewrite <- bytesPerFrame_eq, Hread. simpl. rewrite Henc.
  fold (encode_call uninit input k).
  pose proof (encode_call_length k) as Hlen.
  destruct (encode_call uninit input k) as [[ret enc'] data] eqn:Hcall.
  simpl in Hlen.
  assert (overlay data (uninit <$> seq (k * 20) 20)
          = encoded_frame uninit input k) as Hframe.
  { unfold encoded_frame. by rewrite Hcall. }
  pose proof (frames_length (encoded_frame uninit input) 20 k
                (λ j _, encoded_frame_length j)) as Hpre.
  rewrite Hdata, Hoff. fold n. rewrite (uninit_drop uninit 20 n k Hk).
  assert (length (uninit <$> seq (k * 20) 20) = 20%nat) as HU
    by (by rewrite length_fmap, length_seq).
  set (U := uninit <$> seq (k * 20) 20) in *. clearbody U. unfold write_ptr.
  rewrite write_bytes_append
    by (rewrite ?length_app, ?Hpre; unfold encodedFrameSize; lia).
  eexists. split; [reflexivity|].
  unfold encode_inv.
  cbn [es_encoder es_encodedData es_offset es_log]. fold n.
  split_and!.
  - change (enc' = (encode_call uninit input k).1.2). by rewrite Hcall.
  - rewrite frames_snoc, <- Hframe. unfold overlay.
    rewrite drop_app_le by lia. by rewrite <- !app_assoc.
  - rewrite to_int_id by (unfold INT_MAX, encodedFrameSize in *; nia). lia.
  - rewrite Hlog, seq_S, fmap_app. simpl.
    unfold encode_event at 3. by rewrite Hcall.
Qed.

Lemma encode_stream_length :
  Z.of_nat (length (encode_stream uninit input))
  = Z.of_nat (length input) / bytesPerFrame * encodedFrameSize.
Proof.
  unfold encode_stream.
  rewrite (frames_length _ 20) by (intros; apply encoded_frame_length).
  pose proof bytesPerFrame_range. unfold frame_count, encodedFrameSize.
  assert (0 ≤ Z.of_nat (length input) / bytesPerFrame)
    by (apply Z.div_pos; lia).
  lia.
Qed.

Lemma encodeLC3_run (h : gmap jarray (list byte)) (pcmData : jarray) :
  h !! pcmData = Some input →
  Z.of_nat (length input) ≤ INT_MAX →
  Z.of_nat (length input) / bytesPerFrame * encodedFrameSize ≤ INT_MAX →
  encodeLC3 uninit h pcmData
  = Ok (fresh (dom h),
        <[fresh (dom h) := encode_stream uninit input]> h,
        EvSetupEncoder :: (encode_event uninit input <$> seq 0 n)
          ++ [EvFreeEncoder]).
Proof.
  intros Hin Hlen Hfit.
  pose proof bytesPerFrame_range as HB.
  assert (0 ≤ Z.of_nat (length input) / bytesPerFrame) as Hq
    by (apply Z.div_pos; lia).
  assert (Z.of_nat (length input) / bytesPerFrame = Z.of_nat n) as Hn
    by (unfold n, frame_count; lia).
  unfold encodeLC3, GetArrayElements. rewrite Hin. simpl.
  unfold int_div. destruct (Z.eqb_spec bytesPerFrame 0); [lia|]. simpl.
  rewrite Z.quot_div_nonneg by lia.
  rewrite Hn in *.
  rewrite to_int_id by (unfold INT_MAX, encodedFrameSize in *; lia).
  destruct (for_frames_inv (encode_inv uninit input)
              (Z.of_nat (length input)) bytesPerFrame
              (encode_frame input) HB ltac:(lia)
              (λ k s Hk, encode_frame_step k s Hfit Hk)
              (length input) 0%nat
              {| es_encoder := fresh_encoder uninit;
                 es_encodedData :=
                   malloc uninit (Z.of_nat n * encodedFrameSize);
                 es_offset := 0; es_log := [EvSetupEncoder] |})
    as (s' & Hloop & Henc & Hdata & Hoff & Hlog).
  - lia.
  - fold n. pose proof (Z.mul_div_le (Z.of_nat (length input))
                          bytesPerFrame).
    nia.
  - unfold encode_inv. simpl.
    rewrite !malloc_nonneg by (unfold encodedFrameSize; lia).
    fold n. split_and!; try done.
    rewrite drop_0. do 3 f_equal. unfold encodedFrameSize. lia.
  - change (Z.of_nat 0 * bytesPerFrame) with 0 in Hloop.
    unfold fresh_encoder in Hloop. rewrite Hloop. simpl.
    fold n in Hdata, Hlog. rewrite Hdata, Hlog.
    rewrite drop_ge by (rewrite length_fmap, length_seq; lia).
    rewrite app_nil_r. fold (encode_stream uninit input).
    pose proof (new_array_filled h (Z.of_nat n * encodedFrameSize)
                  (encode_stream uninit input)) as Hnew.
    rewrite encode_stream_length, Hn in Hnew. specialize (Hnew eq_refl).
    destruct (NewByteArray h (Z.of_nat n * encodedFrameSize))
      as [[resultArray h1]|] eqn:Hna; simpl in Hnew; [|done].
    simpl.
    destruct (SetByteArrayRegion h1 resultArray 0 _ _) as [h2|];
      simpl in Hnew; [|done].
    simpl. by simplify_eq.
Qed.

End EncodeRun.

(** ** Inputs cut after their last whole frame *)

Lemma slice_take {A : Type} (l : list A) (c k m : nat) :
  (k * c + c ≤ m)%nat → slice (take m l) c k = slice l c k.
Proof.
  intros Hm. unfold slice.
  rewrite !take_drop_commute, take_take. do 2 f_equal. lia.
Qed.

Lemma fmap_seq_ext {A : Type} (f g : nat → A) (n : nat) :
  (∀ j, (j < n)%nat → f j = g j) → f <$> seq 0 n = g <$> seq 0 n.
Proof.
  induction n as [|n IH]; intros Hfg; [done|].
  rewrite seq_S, !fmap_app, IH by (intros; apply Hfg; lia).
  simpl. by rewrite Hfg by lia.
Qed.

Lemma frame_count_take {A : Type} (l : list A) (c : Z) :
  0 < c →
  let n := frame_count (Z.of_nat (length l)) c in
  frame_count (Z.of_nat (length (take (n * Z.to_nat c) l))) c = n.
Proof.
  intros Hc n. rewrite length_take.
  pose proof (Z.mul_div_le (Z.of_nat (length l)) c Hc) as Hle.
  assert (0 ≤ Z.of_nat (length l) / c) as Hq by (apply Z.div_pos; lia).
  assert (Z.of_nat n = Z.of_nat (length l) / c) as Hn
    by (unfold n, frame_count; lia).
  assert (n * Z.to_nat c ≤ length l)%nat as Hfit by nia.
  rewrite Nat.min_l by done.
  replace (Z.of_nat (n * Z.to_nat c)) with (Z.of_nat n * c) by nia.
  unfold frame_count. rewrite Z.div_mul by lia. lia.
Qed.

Section Truncation.

Context `{lib : Lc3}.
Variable uninit : nat → byte.
Variable input : list byte.
Variable m : nat.

Lemma decoder_before_take k :
  (k * 20 ≤ m)%nat →
  decoder_before uninit (take m input) k = decoder_before uninit input k.
Proof.
  induction k as [|k IH]; intros Hk; [done|].
  simpl. rewrite IH, slice_take by lia. done.
Qed.

Lemma decode_call_take k :
  (k * 20 + 20 ≤ m)%nat →
  decode_call uninit (take m input) k = decode_call uninit input k.
Proof.
  intros Hk. unfold decode_call.
  by rewrite decoder_before_take, slice_take by lia.
Qed.

Lemma encoder_before_take k :
  (k * Z.to_nat bytesPerFrame ≤ m)%nat →
  encoder_before uninit (take m input) k = encoder_before uninit input k.
Proof.
  induction k as [|k IH]; intros Hk; [done|].
  simpl. rewrite IH, slice_take by lia. done.
Qed.

Lemma encode_call_take k :
  (k * Z.to_nat bytesPerFrame + Z.to_nat bytesPerFrame ≤ m)%nat →
  encode_call uninit (take m input) k = encode_call uninit input k.
Proof.
  intros Hk. unfold encode_call.
  by rewrite encoder_before_take, slice_take by lia.
Qed.

End Truncation.

Section TruncatedStreams.

Context `{lib : Lc3} {ok : Lc3Contract lib}.
Variable uninit : nat → byte.
Variable input : list byte.

Lemma decode_stream_take :
  let n := frame_count (Z.of_nat (length input)) output_byte_count in
  decode_stream uninit (take (n * 20) input) = decode_stream uninit input
  ∧ decode_event uninit (take (n * 20) input) <$> seq 0 n
    = decode_event uninit input <$> seq 0 n.
Proof.
  intros n. unfold decode_stream.
  pose proof (frame_count_take input output_byte_count ltac:(done)) as Hn.
  change (Z.to_nat output_byte_count) with 20%nat in Hn.
  simpl in Hn. subst n. rewrite Hn.
  split; [f_equal|]; apply fmap_seq_ext; intros j Hj;
    unfold decoded_frame, decode_event;
    by rewrite decode_call_take by lia.
Qed.

Lemma encode_stream_take :
  let n := frame_count (Z.of_nat (length input)) bytesPerFrame in
  encode_stream uninit (take (n * Z.to_nat bytesPerFrame) input)
  = encode_stream uninit input
  ∧ encode_event uninit (take (n * Z.to_nat bytesPerFrame) input)
      <$> seq 0 n
    = encode_event uninit input <$> seq 0 n.
Proof.
  intros n. unfold encode_stream. pose proof bytesPerFrame_range as HB.
  pose proof (frame_count_take input bytesPerFrame (proj1 HB)) as Hn.
  simpl in Hn. subst n. rewrite Hn.
  split; [f_equal|]; apply fmap_seq_ext; intros j Hj;
    unfold encoded_frame, encode_event;
    by rewrite encode_call_take
      by (transitivity (S j * Z.to_nat bytesPerFrame)%nat;
          [simpl; lia|apply Nat.mul_le_mono_r; lia]).
Qed.

End TruncatedStreams.

(** ** The sample codecs keep the contract *)

Lemma counting_codec_contract : Lc3Contract Samples.counting_codec.
Proof.
  split.
  - by vm_compute.
  - intros dec frame.
    change (Z.of_nat (length (replicate 320 (default x00 (head frame)))) ≤ 320).
    rewrite length_replicate. lia.
  - intros enc pcm.
    change (Z.of_nat (length (replicate 20 (default x00 (head pcm)))) ≤ 20).
    rewrite length_replicate. lia.
Qed.

Lemma failing_codec_contract : Lc3Contract Samples.failing_codec.
Proof. split; [by vm_compute|intros; by vm_compute..]. Qed.

Lemma numbering_codec_contract : Lc3Contract Samples.numbering_codec.
Proof.
  split.
  - by vm_compute.
  - intros dec frame.
    change (Z.of_nat (length (replicate 320 (default x00 (head frame)))) ≤ 320).
    rewrite length_replicate. lia.
  - intros enc pcm.
    change (Z.of_nat (length (replicate 20 (default x00 (head pcm)))) ≤ 20).
    rewrite length_replicate. lia.
Qed.

(** ** Memory as [malloc] left it, at one time and another *)

(** A stream depends on what [malloc] left in memory in two ways: through
    the memory that the codec is set up in, and through the bytes of a frame
    that the codec does not store. *)
Section OtherMemory.

Context `{lib : Lc3} {ok : Lc3Contract lib}.
Variables uninit uninit' : nat → byte.
Variable input : list byte.

Lemma decoder_before_uninit :
  fresh_decoder uninit' = fresh_decoder uninit →
  ∀ k, decoder_before uninit' input k = decoder_before uninit input k.
Proof. intros Hsetup. induction k as [|k IH]; [done|]. simpl. by rewrite IH. Qed.

Lemma decode_call_uninit :
  fresh_decoder uninit' = fresh_decoder uninit →
  ∀ k, decode_call uninit' input k = decode_call uninit input k.
Proof.
  intros Hsetup k. unfold decode_call. by rewrite decoder_before_uninit.
Qed.

Lemma decode_stream_uninit :
  fresh_decoder uninit' = fresh_decoder uninit →
  (∀ k, (k < frame_count (Z.of_nat (length input)) output_byte_count)%nat →
     length (decode_call uninit input k).2 = Z.to_nat bytesOfFrames) →
  decode_stream uninit' input = decode_stream uninit input.
Proof.
  intros Hsetup Hfull. unfold decode_stream. f_equal.
  apply fmap_seq_ext. intros k Hk. unfold decoded_frame.
  rewrite decode_call_uninit by done.
  rewrite !overlay_full; [done|..];
    rewrite scratch_before_length; by apply Hfull.
Qed.

Lemma encoder_before_uninit :
  fresh_encoder uninit' = fresh_encoder uninit →
  ∀ k, encoder_before uninit' input k = encoder_before uninit input k.
Proof. intros Hsetup. induction k as [|k IH]; [done|]. simpl. by rewrite IH. Qed.

Lemma encode_call_uninit :
  fresh_encoder uninit' = fresh_encoder uninit →
  ∀ k, encode_call uninit' input k = encode_call uninit input k.
Proof.
  intros Hsetup k. unfold encode_call. by rewrite encoder_before_uninit.
Qed.

Lemma encode_stream_uninit :
  fresh_encoder uninit' = fresh_encoder uninit →
  (∀ k, (k < frame_count (Z.of_nat (length input)) bytesPerFrame)%nat →
     length (encode_call uninit input k).2 = 20%nat) →
  encode_stream uninit' input = encode_stream uninit input.
Proof.
  intros Hsetup Hfull. unfold encode_stream. f_equal.
  apply fmap_seq_ext. intros k Hk. unfold encoded_frame.
  rewrite encode_call_uninit by done.
  rewrite !overlay_full; [done|..];
    rewrite length_fmap, length_seq; by apply Hfull.
Qed.

End OtherMemory.

(** ** What a call does to the heap *)

(** One step of a call that returned: its first action returned too. *)
Tactic Notation "returned" hyp(H) "as" simple_intropattern(p)
    "eqn" ":" ident(E) :=
  match type of H with
  | context [mbind _ ?m] =>
      destruct m as [p|] eqn:E; cbn [mbind result_bind] in H;
      [|discriminate H]
  end.

Lemma NewByteArray_heap (h h1 : gmap jarray (list byte)) (size : Z)
    (r : jarray) :
  NewByteArray h size = Ok (r, h1) →
  ∀ b, is_Some (h !! b) → b ≠ r ∧ h1 !! b = h !! b.
Proof.
  unfold NewByteArray. destruct (size <? 0); [done|].
  intros [= <- <-] b Hb.
  assert (b ≠ fresh (dom h)) as Hne.
  { intros ->. apply elem_of_dom in Hb. by apply is_fresh in Hb. }
  by rewrite lookup_insert_ne.
Qed.

Lemma SetByteArrayRegion_heap (h1 h2 : gmap jarray (list byte)) (r : jarray)
    (start len : Z) (buf : ptr) :
  SetByteArrayRegion h1 r start len buf = Ok h2 →
  ∀ b, b ≠ r → h2 !! b = h1 !! b.
Proof.
  unfold SetByteArrayRegion. destruct (h1 !! r) as [arr|]; [|done].
  destruct (_ && _); [|done].
  destruct (read_ptr buf 0 len) as [data|]; [|done].
  intros [= <-] b Hb. by rewrite lookup_insert_ne.
Qed.

(** A call that returns has added one array to the heap, and that is all. *)
Lemma decodeLC3_heap `{lib : Lc3} (uninit : nat → byte)
    (h h' : gmap jarray (list byte)) (a r : jarray) (log : list event) :
  decodeLC3 uninit h a = Ok (r, h', log) →
  ∀ b, is_Some (h !! b) → h' !! b = h !! b.
Proof.
  unfold decodeLC3. intros Hrun.
  returned Hrun as lc3Bytes eqn:Hget.
  returned Hrun as q eqn:Hq.
  returned Hrun as s eqn:Hloop.
  returned Hrun as [resultArray h1] eqn:Hnew.
  returned Hrun as h2 eqn:Hset.
  injection Hrun as <- <- <-. intros b Hb.
  destruct (NewByteArray_heap _ _ _ _ Hnew b Hb) as [Hne <-].
  by apply (SetByteArrayRegion_heap _ _ _ _ _ _ Hset).
Qed.

Lemma encodeLC3_heap `{lib : Lc3} (uninit : nat → byte)
    (h h' : gmap jarray (list byte)) (a r : jarray) (log : list event) :
  encodeLC3 uninit h a = Ok (r, h', log) →
  ∀ b, is_Some (h !! b) → h' !! b = h !! b.
Proof.
  unfold encodeLC3. intros Hrun.
  returned Hrun as pcmBytes eqn:Hget.
  returned Hrun as q eqn:Hq.
  returned Hrun as s eqn:Hloop.
  returned Hrun as [resultArray h1] eqn:Hnew.
  returned Hrun as h2 eqn:Hset.
  injection Hrun as <- <- <-. intros b Hb.
  destruct (NewByteArray_heap _ _ _ _ Hnew b Hb) as [Hne <-].
  by apply (SetByteArrayRegion_heap _ _ _ _ _ _ Hset).
Qed.

(** ** Counting the calls of a log *)

Lemma filter_none {A : Type} (P : A → Prop) `{∀ x, Decision (P x)}
    (l : list A) :
  Forall (λ x, ¬ P x) l → filter P l = [].
Proof.
  induction 1 as [|x l Hx _ IH]; [done|].
  by rewrite filter_cons_False.
Qed.

Lemma once_in_log (first last : event) (frames : list event) (e : event) :
  Forall (λ x, ¬ x = e) frames →
  (e = first ∧ e ≠ last ∨ e ≠ first ∧ e = last) →
  filter (λ x, x = e) (first :: frames ++ [last]) = [e].
Proof.
  intros Hframes [[-> Hne]|[Hne ->]].
  - rewrite filter_cons_True, filter_app, filter_none by done.
    by rewrite filter_cons_False by done.
  - rewrite filter_cons_False, filter_app, filter_none by done.
    by rewrite filter_cons_True by done.
Qed.

(** ** The loops within the range of [int] *)

(** X1. For every input length whose
    output size is within [INT_MAX], zero and lengths below one frame
    included, the guard of the loop compares [i] with [L - inputFrameSize]
    as a signed [int] that has not wrapped, the loop makes exactly
    [L / inputFrameSize] rounds, and no access leaves its block: the call
    ends without a fault (every access of the embedding is checked), each
    frame read lies within the [L] input bytes and each frame written
    within the [L / inputFrameSize * outputFrameSize] bytes of the output. *)
Theorem loops_within_bounds `{lib : Lc3} {ok : Lc3Contract lib}
    (uninit : nat → byte) (h : gmap jarray (list byte)) (a : jarray)
    (input : list byte) :
  h !! a = Some input →
  Z.of_nat (length input) ≤ INT_MAX →
  (Z.of_nat (length input) / 20 * bytesOfFrames ≤ INT_MAX →
   to_int (Z.of_nat (length input) - 20) = Z.of_nat (length input) - 20
   ∧ ∃ r h' frames,
       decodeLC3 uninit h a
       = Ok (r, h', EvSetupDecoder :: frames ++ [EvFreeDecoder])
       ∧ Z.of_nat (length frames) = Z.of_nat (length input) / 20
       ∧ ∀ e, e ∈ frames →
           ∃ i offset ret,
             e = EvDecode i offset ret
             ∧ 0 ≤ i ∧ i + 20 ≤ Z.of_nat (length input)
             ∧ 0 ≤ offset
             ∧ offset + bytesOfFrames
               ≤ Z.of_nat (length input) / 20 * bytesOfFrames)
  ∧ (Z.of_nat (length input) / bytesPerFrame * 20 ≤ INT_MAX →
     to_int (Z.of_nat (length input) - bytesPerFrame)
     = Z.of_nat (length input) - bytesPerFrame
     ∧ ∃ r h' frames,
         encodeLC3 uninit h a
         = Ok (r, h', EvSetupEncoder :: frames ++ [EvFreeEncoder])
         ∧ Z.of_nat (length frames) = Z.of_nat (length input) / bytesPerFrame
         ∧ ∀ e, e ∈ frames →
             ∃ i offset ret,
               e = EvEncode i offset ret
               ∧ 0 ≤ i ∧ i + bytesPerFrame ≤ Z.of_nat (length input)
               ∧ 0 ≤ offset
               ∧ offset + 20
                 ≤ Z.of_nat (length input) / bytesPerFrame * 20).
Proof.
  intros Hin Hlen.
  pose proof bytesPerFrame_range as HB.
  pose proof bytesOfFrames_range as HB'.
  split; intros Hfit;
    (split; [apply to_int_id; unfold INT_MAX in *; lia|]).
  - rewrite (decodeLC3_run uninit h a input Hin Hlen Hfit).
    assert (0 ≤ Z.of_nat (length input) / 20) as Hq
      by (apply Z.div_pos; lia).
    do 3 eexists. split_and!; [done|..].
    + rewrite length_fmap, length_seq. unfold frame_count, output_byte_count.
      lia.
    + intros e (k & -> & Hk%elem_of_seq)%list_elem_of_fmap.
      assert (k < frame_count (Z.of_nat (length input)) 20)%nat as Hlt
        by (unfold output_byte_count in Hk; lia).
      pose proof Hlt as Hfc. apply frame_count_spec in Hfc; [|lia..].
      do 3 eexists. split; [reflexivity|].
      unfold frame_count, output_byte_count in *. nia.
  - rewrite (encodeLC3_run uninit input h a Hin Hlen Hfit).
    assert (0 ≤ Z.of_nat (length input) / bytesPerFrame) as Hq
      by (apply Z.div_pos; lia).
    do 3 eexists. split_and!; [done|..].
    + rewrite length_fmap, length_seq. unfold frame_count. lia.
    + intros e (k & -> & Hk%elem_of_seq)%list_elem_of_fmap.
      assert (k < frame_count (Z.of_nat (length input)) bytesPerFrame)%nat
        as Hlt by lia.
      pose proof Hlt as Hfc. apply frame_count_spec in Hfc; [|lia..].
      assert (Z.of_nat k + 1 ≤ Z.of_nat (length input) / bytesPerFrame)
        as Hle by (unfold frame_count in Hlt; lia).
      do 3 eexists. split; [reflexivity|].
      unfold encodedFrameSize. split_and!; lia.
Qed.

(** An instance: on a 7-byte input the loop makes no round. *)
Lemma loops_within_bounds_witness :
  ∃ r h',
    decodeLC3 (lib := Samples.counting_codec) Samples.stale
      (<[Samples.lc3Data := replicate 7 x01]> Samples.heap25)
      Samples.lc3Data
    = Ok (r, h', [EvSetupDecoder; EvFreeDecoder]).
Proof.
  destruct (loops_within_bounds (lib := Samples.counting_codec)
              (ok := counting_codec_contract) Samples.stale
              (<[Samples.lc3Data := replicate 7 x01]> Samples.heap25)
              Samples.lc3Data (replicate 7 x01))
    as [Hdec _]; [by vm_compute..|].
  destruct Hdec as (_ & r & h' & frames & Hrun & Hcount & _);
    [by vm_compute|].
  exists r, h'. rewrite Hrun.
  by destruct frames.
Defined.

(** ** Output sizes beyond [INT_MAX] *)

(** The output size of [encodeLC3] fits [int] for every Java array once a
    frame of samples has 20 bytes or more (LC3's has 320). *)
Lemma encode_size_fits `{lib : Lc3} (len : Z) :
  20 ≤ bytesPerFrame → 0 ≤ len ≤ INT_MAX →
  len / bytesPerFrame * 20 ≤ INT_MAX.
Proof.
  intros HB Hlen.
  assert (len / bytesPerFrame ≤ len / 20) as Hq
    by (apply Z.div_le_compat_l; lia).
  pose proof (Z.mul_div_le len 20). lia.
Qed.

Lemma for_frames_unfold {S : Type} (fuel : nat) (len step : Z)
    (body : Z → S → result S) (i : Z) (s : S) :
  for_frames (Datatypes.S fuel) len step body i s
  = if i <=? to_int (len - step)
    then body i s ≫= for_frames fuel len step body (to_int (i + step))
    else Ok s.
Proof. reflexivity. Qed.

Section Overflow.

Context `{lib : Lc3} {ok : Lc3Contract lib}.
Variable uninit : nat → byte.
Variable input : list byte.

(** The first round of the decoding loop when the output block has fewer
    bytes than a frame, or is NULL: the frame is decoded into the frame
    buffer, and copying it to the output is the fault. *)
Lemma decode_frame_overflow (dec : lc3_decoder_t) (size : Z)
    (log : list event) :
  (20 ≤ length input)%nat → size < bytesOfFrames →
  decode_frame input 0
    {| ds_decoder := dec; ds_outBuf := malloc uninit bytesOfFrames;
       ds_outArray := malloc uninit size; ds_offset := 0; ds_log := log |}
  = Err (if size <? 0 then NullPointer else OutOfBounds).
Proof.
  intros Hin Hsize. pose proof bytesOfFrames_range as HB.
  unfold decode_frame.
  pose proof (read_bytes_slice input 20 0 ltac:(lia)) as Hread.
  change (Z.of_nat 0 * Z.of_nat 20) with 0 in Hread.
  change (Z.of_nat 20) with output_byte_count in Hread.
  rewrite Hread. cbn [mbind result_bind ds_decoder ds_outBuf ds_outArray
                       ds_offset ds_log].
  pose proof (decode_stores dec (slice input 20 0)) as Hpcm.
  rewrite <- bytesOfFrames_eq in Hpcm.
  destruct (lc3_decode dec (slice input 20 0) output_byte_count
              LC3_PCM_FORMAT_S16 1) as [[ret dec'] pcm].
  cbn [snd] in Hpcm.
  rewrite (malloc_nonneg uninit bytesOfFrames) by lia.
  set (U := uninit <$> seq 0 (Z.to_nat bytesOfFrames)).
  assert (length U = Z.to_nat bytesOfFrames) as HU
    by (unfold U; by rewrite length_fmap, length_seq).
  unfold write_ptr at 1. rewrite write_bytes_start by lia.
  cbn [mbind result_bind]. unfold memcpy, read_ptr.
  rewrite read_bytes_all by (rewrite overlay_length; lia).
  cbn [mbind result_bind]. unfold malloc.
  destruct (Z.leb_spec 0 size) as [Hpos|Hneg];
    destruct (Z.ltb_spec size 0) as [Hneg'|Hpos']; try lia; [|done].
  unfold write_ptr, write_bytes.
  rewrite overlay_length, length_fmap, length_seq, HU by lia.
  destruct (Z.leb_spec (0 + Z.of_nat (Z.to_nat bytesOfFrames))
              (Z.of_nat (Z.to_nat size))); [lia|done].
Qed.

(** [decodeLC3] on an input of at least one frame whose output size, as
    the [int] that [outSize] is, falls short of one output frame. *)
Lemma decodeLC3_overflow (h : gmap jarray (list byte)) (a : jarray) :
  h !! a = Some input →
  20 ≤ Z.of_nat (length input) ≤ INT_MAX →
  to_int (Z.of_nat (length input) ÷ 20 * bytesOfFrames) < bytesOfFrames →
  decodeLC3 uninit h a
  = Err (if to_int (Z.of_nat (length input) ÷ 20 * bytesOfFrames) <? 0
         then NullPointer else OutOfBounds).
Proof.
  intros Hin Hlen Hsize.
  unfold decodeLC3, GetArrayElements. rewrite Hin.
  cbn [mbind result_bind]. unfold int_div.
  change (output_byte_count =? 0) with false. cbn [mbind result_bind].
  destruct (length input) as [|m] eqn:Hm; [simpl in Hlen; lia|].
  rewrite for_frames_unfold.
  rewrite (to_int_id (Z.of_nat (S m) - output_byte_count))
    by (unfold INT_MAX, output_byte_count in *; lia).
  destruct (Z.leb_spec 0 (Z.of_nat (S m) - output_byte_count));
    [|unfold output_byte_count in *; lia].
  rewrite decode_frame_overflow by (done || lia).
  reflexivity.
Qed.

End Overflow.

(** ** A later call *)

(** A call of [decodeLC3] or [encodeLC3] on an array that was in the heap
    before an earlier call returned its result: it does what it would have
    done had the earlier call not been made. *)
Lemma later_call `{lib : Lc3} {ok : Lc3Contract lib} (uninit2 : nat → byte)
    (h : gmap jarray (list byte)) (out : list byte) (b : jarray)
    (later : list byte) :
  h !! b = Some later →
  Z.of_nat (length later) ≤ INT_MAX →
  (Z.of_nat (length later) / 20 * bytesOfFrames ≤ INT_MAX →
   ∃ r2 r2' out2 log2,
     decodeLC3 uninit2 (<[fresh (dom h) := out]> h) b
     = Ok (r2, <[r2 := out2]> (<[fresh (dom h) := out]> h), log2)
     ∧ decodeLC3 uninit2 h b = Ok (r2', <[r2' := out2]> h, log2)
     ∧ Z.of_nat (length out2)
       = Z.of_nat (length later) / 20 * bytesOfFrames)
  ∧ (Z.of_nat (length later) / bytesPerFrame * 20 ≤ INT_MAX →
     ∃ r2 r2' out2 log2,
       encodeLC3 uninit2 (<[fresh (dom h) := out]> h) b
       = Ok (r2, <[r2 := out2]> (<[fresh (dom h) := out]> h), log2)
       ∧ encodeLC3 uninit2 h b = Ok (r2', <[r2' := out2]> h, log2)
       ∧ Z.of_nat (length out2)
         = Z.of_nat (length later) / bytesPerFrame * 20).
Proof.
  intros Hin Hlen.
  assert (<[fresh (dom h) := out]> h !! b = Some later) as Hin'.
  { rewrite lookup_insert_ne; [done|]. intros Heq.
    assert (b ∈ dom h) as Hb by (apply elem_of_dom; eauto).
    rewrite <- Heq in Hb. by apply is_fresh in Hb. }
  split; intros Hfit.
  - rewrite (decodeLC3_run uninit2 h b later Hin Hlen Hfit).
    rewrite (decodeLC3_run uninit2 _ b later Hin' Hlen Hfit).
    do 4 eexists. split_and!; [done..|apply decode_stream_length].
  - rewrite (encodeLC3_run uninit2 later h b Hin Hlen Hfit).
    rewrite (encodeLC3_run uninit2 later _ b Hin' Hlen Hfit).
    do 4 eexists. split_and!; [done..|apply encode_stream_length].
Qed.

(** * The claims *)

(** C1. Under the codec contract, for an input of [L] bytes whose output
    size is a Java array length (at most [INT_MAX]), [decodeLC3] returns a
    fresh array of exactly [L / 20 * bytesOfFrames] bytes and [encodeLC3]
    one of exactly [L / bytesPerFrame * 20] bytes; when [L] is less than one
    input frame the array returned exists and is empty. *)
Theorem stream_output_length `{lib : Lc3} {ok : Lc3Contract lib}
    (uninit : nat → byte) (h : gmap jarray (list byte)) (a : jarray)
    (input : list byte) :
  h !! a = Some input →
  Z.of_nat (length input) ≤ INT_MAX →
  (Z.of_nat (length input) / 20 * bytesOfFrames ≤ INT_MAX →
   ∃ r h' log out,
     decodeLC3 uninit h a = Ok (r, h', log) ∧ h' !! r = Some out
     ∧ Z.of_nat (length out) = Z.of_nat (length input) / 20 * bytesOfFrames
     ∧ (Z.of_nat (length input) < 20 → out = []))
  ∧ (Z.of_nat (length input) / bytesPerFrame * 20 ≤ INT_MAX →
     ∃ r h' log out,
       encodeLC3 uninit h a = Ok (r, h', log) ∧ h' !! r = Some out
       ∧ Z.of_nat (length out)
         = Z.of_nat (length input) / bytesPerFrame * 20
       ∧ (Z.of_nat (length input) < bytesPerFrame → out = [])).
Proof.
  intros Hin Hlen. split; intros Hfit.
  - rewrite (decodeLC3_run uninit h a input Hin Hlen Hfit).
    do 4 eexists. split_and!; [done|apply lookup_insert_eq|..].
    + apply decode_stream_length.
    + intros Hshort. apply nil_length_inv, Nat2Z.inj.
      rewrite decode_stream_length. unfold output_byte_count.
      by rewrite Z.div_small by lia.
  - rewrite (encodeLC3_run uninit input h a Hin Hlen Hfit).
    do 4 eexists. split_and!; [done|apply lookup_insert_eq|..].
    + apply encode_stream_length.
    + intros Hshort. apply nil_length_inv, Nat2Z.inj.
      rewrite encode_stream_length.
      by rewrite Z.div_small by lia.
Qed.

(** An instance: the 25-byte input decodes to one frame of 320 bytes and, as
    PCM, encodes to no frame at all. *)
Lemma stream_output_length_witness :
  (∃ r h' log out,
     decodeLC3 (lib := Samples.counting_codec) Samples.stale
       Samples.heap25 Samples.lc3Data = Ok (r, h', log)
     ∧ h' !! r = Some out ∧ Z.of_nat (length out) = 320)
  ∧ (∃ r h' log out,
       encodeLC3 (lib := Samples.counting_codec) Samples.stale
         Samples.heap25 Samples.lc3Data = Ok (r, h', log)
       ∧ h' !! r = Some out ∧ out = []).
Proof.
  destruct (stream_output_length (lib := Samples.counting_codec)
              (ok := counting_codec_contract) Samples.stale
              Samples.heap25 Samples.lc3Data Samples.one_frame_and_five)
    as [Hdec Henc]; [by vm_compute..|].
  split.
  - destruct Hdec as (r & h' & log & out & ? & ? & ? & ?); [by vm_compute|].
    by exists r, h', log, out.
  - destruct Henc as (r & h' & log & out & ? & ? & ? & Hs); [by vm_compute|].
    exists r, h', log, out. split_and!; [done..|].
    apply Hs. by vm_compute.
Defined.

(** C1, as the specification has it, fails: 134217740 bytes are 6710887
    frames, whose 2147483840 output bytes are more than [INT_MAX]; [outSize]
    is negative, the output block is NULL, and no array is returned. *)
Lemma output_size_overflow :
  decodeLC3 (lib := Samples.counting_codec) Samples.stale
    {[ Samples.lc3Data := replicate (Z.to_nat 134217740) x00 ]}
    Samples.lc3Data
  = Err NullPointer.
Proof.
  rewrite (decodeLC3_overflow (lib := Samples.counting_codec)
             (ok := counting_codec_contract) Samples.stale
             (replicate (Z.to_nat 134217740) x00)).
  - rewrite length_replicate, Z2Nat.id by lia. by vm_compute.
  - apply lookup_singleton_eq.
  - rewrite length_replicate, Z2Nat.id by lia. by vm_compute.
  - rewrite length_replicate, Z2Nat.id by lia. by vm_compute.
Qed.

(** C2. For an input whose output size is within [INT_MAX], both loops
    take the whole frames of the input one after the other, in ascending
    order: the calls logged are the setup, then frame [0],
    [1], ... up to the frame count, each at input offset [k * inputFrameSize]
    and output offset [k * outputFrameSize], then the release. Frame [k] is
    the [k]-th input slice, it is given to the codec in the state that the
    call on frame [k - 1] returned, and the [k]-th output slice is what
    that call stored (laid over the previous content of the place it is stored
    to, when the codec stores less than a frame). *)
Theorem frames_in_order `{lib : Lc3} {ok : Lc3Contract lib}
    (uninit : nat → byte) (h : gmap jarray (list byte)) (a : jarray)
    (input : list byte) :
  h !! a = Some input →
  Z.of_nat (length input) ≤ INT_MAX →
  (Z.of_nat (length input) / 20 * bytesOfFrames ≤ INT_MAX →
   ∃ r h' out,
     decodeLC3 uninit h a
     = Ok (r, h',
           EvSetupDecoder
             :: (decode_event uninit input
                   <$> seq 0 (frame_count (Z.of_nat (length input)) 20))
             ++ [EvFreeDecoder])
     ∧ h' !! r = Some out
     ∧ ∀ k, (k < frame_count (Z.of_nat (length input)) 20)%nat →
         let call :=
           lc3_decode (decoder_before uninit input k) (slice input 20 k)
             20 LC3_PCM_FORMAT_S16 1 in
         decoder_before uninit input (S k) = call.1.2
         ∧ decode_event uninit input k
           = EvDecode (Z.of_nat k * 20) (Z.of_nat k * bytesOfFrames) call.1.1
         ∧ slice out (Z.to_nat bytesOfFrames) k
           = overlay call.2 (scratch_before uninit k)
         ∧ (length call.2 = Z.to_nat bytesOfFrames →
            slice out (Z.to_nat bytesOfFrames) k = call.2))
  ∧ (Z.of_nat (length input) / bytesPerFrame * 20 ≤ INT_MAX →
     ∃ r h' out,
       encodeLC3 uninit h a
       = Ok (r, h',
             EvSetupEncoder
               :: (encode_event uninit input
                     <$> seq 0 (frame_count (Z.of_nat (length input))
                                  bytesPerFrame))
               ++ [EvFreeEncoder])
       ∧ h' !! r = Some out
       ∧ ∀ k, (k < frame_count (Z.of_nat (length input)) bytesPerFrame)%nat →
           let call :=
             lc3_encode (encoder_before uninit input k) LC3_PCM_FORMAT_S16
               (slice input (Z.to_nat bytesPerFrame) k) 1 20 in
           encoder_before uninit input (S k) = call.1.2
           ∧ encode_event uninit input k
             = EvEncode (Z.of_nat k * bytesPerFrame) (Z.of_nat k * 20)
                 call.1.1
           ∧ slice out 20 k = overlay call.2 (uninit <$> seq (k * 20) 20)
           ∧ (length call.2 = 20%nat → slice out 20 k = call.2)).
Proof.
  intros Hin Hlen. split; intros Hfit.
  - rewrite (decodeLC3_run uninit h a input Hin Hlen Hfit).
    do 3 eexists. split_and!; [done|apply lookup_insert_eq|].
    intros k Hk call.
    assert (slice (decode_stream uninit input) (Z.to_nat bytesOfFrames) k
            = overlay call.2 (scratch_before uninit k)) as Hslice.
    { unfold decode_stream. rewrite frames_slice; [done| |done].
      intros. apply decoded_frame_length. }
    split_and!; [done..|].
    intros Hfull. rewrite Hslice. apply overlay_full.
    by rewrite scratch_before_length.
  - rewrite (encodeLC3_run uninit input h a Hin Hlen Hfit).
    do 3 eexists. split_and!; [done|apply lookup_insert_eq|].
    intros k Hk call.
    assert (slice (encode_stream uninit input) 20 k
            = overlay call.2 (uninit <$> seq (k * 20) 20)) as Hslice.
    { unfold encode_stream. rewrite frames_slice; [done| |done].
      intros. apply encoded_frame_length. }
    split_and!; [done..|].
    intros Hfull. rewrite Hslice. apply overlay_full.
    by rewrite length_fmap, length_seq.
Qed.

(** An instance, for the codec whose return code is the number of frames
    its state has seen: three encoded frames and five bytes, then two frames
    of samples and sixty bytes. The frames are taken in order, each in the
    state the one before left, and each output slice is its own frame's. *)
Lemma frames_in_order_witness :
  (∃ r h' out,
     decodeLC3 (lib := Samples.numbering_codec) Samples.stale
       Samples.heap65 Samples.lc3Data
     = Ok (r, h',
           [EvSetupDecoder; EvDecode 0 0 0; EvDecode 20 320 1;
            EvDecode 40 640 2; EvFreeDecoder])
     ∧ h' !! r = Some out
     ∧ slice out 320 0 = replicate 320 x01
     ∧ slice out 320 1 = replicate 320 x02
     ∧ slice out 320 2 = replicate 320 x03)
  ∧ (∃ r h' out,
       encodeLC3 (lib := Samples.numbering_codec) Samples.stale
         Samples.heap700 Samples.lc3Data
       = Ok (r, h',
             [EvSetupEncoder; EvEncode 0 0 0; EvEncode 320 20 1;
              EvFreeEncoder])
       ∧ h' !! r = Some out
       ∧ slice out 20 0 = replicate 20 x01
       ∧ slice out 20 1 = replicate 20 x02).
Proof.
  split.
  - destruct (frames_in_order (lib := Samples.numbering_codec)
                (ok := numbering_codec_contract) Samples.stale
                Samples.heap65 Samples.lc3Data Samples.three_frames_and_five)
      as [Hdec _]; [by vm_compute..|].
    destruct Hdec as (r & h' & out & Hrun & Hout & Hframes); [by vm_compute|].
    exists r, h', out. split_and!; [exact Hrun|exact Hout|..].
    + destruct (Hframes 0%nat) as (_ & _ & _ & Hfull); [vm_compute; lia|].
      apply Hfull. by vm_compute.
    + destruct (Hframes 1%nat) as (_ & _ & _ & Hfull); [vm_compute; lia|].
      apply Hfull. by vm_compute.
    + destruct (Hframes 2%nat) as (_ & _ & _ & Hfull); [vm_compute; lia|].
      apply Hfull. by vm_compute.
  - destruct (frames_in_order (lib := Samples.numbering_codec)
                (ok := numbering_codec_contract) Samples.stale
                Samples.heap700 Samples.lc3Data Samples.two_frames_and_sixty)
      as [_ Henc]; [by vm_compute..|].
    destruct Henc as (r & h' & out & Hrun & Hout & Hframes); [by vm_compute|].
    exists r, h', out. split_and!; [exact Hrun|exact Hout|..].
    + destruct (Hframes 0%nat) as (_ & _ & _ & Hfull); [vm_compute; lia|].
      apply Hfull. by vm_compute.
    + destruct (Hframes 1%nat) as (_ & _ & _ & Hfull); [vm_compute; lia|].
      apply Hfull. by vm_compute.
Defined.

(** C2, as the specification has it, fails: 134217760 bytes are 6710888
    whole frames, whose 2147484160 output bytes are more than [INT_MAX];
    [outSize] is negative, the output block is NULL, and the first frame is
    decoded but cannot be put anywhere: the frames are not gone through and
    no output slice is written. *)
Lemma frames_lost_to_overflow :
  decodeLC3 (lib := Samples.counting_codec) Samples.stale
    {[ Samples.lc3Data := replicate (Z.to_nat 134217760) x00 ]}
    Samples.lc3Data
  = Err NullPointer.
Proof.
  rewrite (decodeLC3_overflow (lib := Samples.counting_codec)
             (ok := counting_codec_contract) Samples.stale
             (replicate (Z.to_nat 134217760) x00)).
  - rewrite length_replicate, Z2Nat.id by lia. by vm_compute.
  - apply lookup_singleton_eq.
  - rewrite length_replicate, Z2Nat.id by lia. by vm_compute.
  - rewrite length_replicate, Z2Nat.id by lia. by vm_compute.
Qed.

(** C3. For an input whose output size is within [INT_MAX], the bytes
    after the last whole frame have no effect and raise no error: the call
    on the input and the call on that input cut after its last whole frame
    both succeed, with the same output bytes and the same codec calls; the
    output has one output frame per whole input frame. Nor are these bytes
    kept for a later call: a later call on another array, whatever [malloc]
    leaves in memory by then, does what it would have done had this call not
    been made, and returns the whole frames of its own input. *)
Theorem trailing_bytes_dropped `{lib : Lc3} {ok : Lc3Contract lib}
    (uninit : nat → byte) (h : gmap jarray (list byte)) (a : jarray)
    (input : list byte) :
  h !! a = Some input →
  Z.of_nat (length input) ≤ INT_MAX →
  (Z.of_nat (length input) / 20 * bytesOfFrames ≤ INT_MAX →
   let whole := take (frame_count (Z.of_nat (length input)) 20 * 20) input in
   ∃ r r' out log,
     decodeLC3 uninit h a = Ok (r, <[r := out]> h, log)
     ∧ decodeLC3 uninit (<[a := whole]> h) a
       = Ok (r', <[r' := out]> (<[a := whole]> h), log)
     ∧ Z.of_nat (length out)
       = Z.of_nat (length input) / 20 * bytesOfFrames
     ∧ ∀ (uninit2 : nat → byte) (b : jarray) (later : list byte),
         h !! b = Some later →
         Z.of_nat (length later) ≤ INT_MAX →
         Z.of_nat (length later) / 20 * bytesOfFrames ≤ INT_MAX →
         ∃ r2 r2' out2 log2,
           decodeLC3 uninit2 (<[r := out]> h) b
           = Ok (r2, <[r2 := out2]> (<[r := out]> h), log2)
           ∧ decodeLC3 uninit2 h b = Ok (r2', <[r2' := out2]> h, log2)
           ∧ Z.of_nat (length out2)
             = Z.of_nat (length later) / 20 * bytesOfFrames)
  ∧ (Z.of_nat (length input) / bytesPerFrame * 20 ≤ INT_MAX →
     let whole :=
       take (frame_count (Z.of_nat (length input)) bytesPerFrame
             * Z.to_nat bytesPerFrame) input in
     ∃ r r' out log,
       encodeLC3 uninit h a = Ok (r, <[r := out]> h, log)
       ∧ encodeLC3 uninit (<[a := whole]> h) a
         = Ok (r', <[r' := out]> (<[a := whole]> h), log)
       ∧ Z.of_nat (length out)
         = Z.of_nat (length input) / bytesPerFrame * 20
       ∧ ∀ (uninit2 : nat → byte) (b : jarray) (later : list byte),
           h !! b = Some later →
           Z.of_nat (length later) ≤ INT_MAX →
           Z.of_nat (length later) / bytesPerFrame * 20 ≤ INT_MAX →
           ∃ r2 r2' out2 log2,
             encodeLC3 uninit2 (<[r := out]> h) b
             = Ok (r2, <[r2 := out2]> (<[r := out]> h), log2)
             ∧ encodeLC3 uninit2 h b = Ok (r2', <[r2' := out2]> h, log2)
             ∧ Z.of_nat (length out2)
               = Z.of_nat (length later) / bytesPerFrame * 20).
Proof.
  intros Hin Hlen. split; intros Hfit whole.
  - assert (length whole ≤ length input)%nat as Hwhole
      by (unfold whole; rewrite length_take; lia).
    rewrite (decodeLC3_run uninit h a input Hin Hlen Hfit).
    rewrite (decodeLC3_run uninit (<[a := whole]> h) a whole).
    + destruct (decode_stream_take uninit input) as [Hout Hlog].
      pose proof (frame_count_take input output_byte_count) as Hn.
      change (Z.to_nat output_byte_count) with 20%nat in Hn.
      specialize (Hn ltac:(done)). simpl in Hn, Hout, Hlog.
      change (take (frame_count (Z.of_nat (length input)) output_byte_count
                    * 20) input) with whole in Hout, Hlog, Hn.
      rewrite Hout, Hn, Hlog.
      do 4 eexists.
      split_and!; [done|done|apply decode_stream_length|].
      intros uninit2 b later Hb Hblen Hbfit.
      by apply (later_call uninit2 h _ b later Hb Hblen).
    + apply lookup_insert_eq.
    + lia.
    + etrans; [|exact Hfit]. pose proof bytesOfFrames_range.
      apply Z.mul_le_mono_nonneg_r; [lia|].
      apply Z.div_le_mono; unfold output_byte_count; lia.
  - pose proof bytesPerFrame_range as HB.
    assert (length whole ≤ length input)%nat as Hwhole
      by (unfold whole; rewrite length_take; lia).
    rewrite (encodeLC3_run uninit input h a Hin Hlen Hfit).
    rewrite (encodeLC3_run uninit whole (<[a := whole]> h) a).
    + destruct (encode_stream_take uninit input) as [Hout Hlog].
      pose proof (frame_count_take input bytesPerFrame (proj1 HB)) as Hn.
      simpl in Hn, Hout, Hlog. fold whole in Hout, Hlog, Hn.
      rewrite Hout, Hn, Hlog.
      do 4 eexists.
      split_and!; [done|done|apply encode_stream_length|].
      intros uninit2 b later Hb Hblen Hbfit.
      by apply (later_call uninit2 h _ b later Hb Hblen).
    + apply lookup_insert_eq.
    + lia.
    + etrans; [|exact Hfit].
      apply Z.mul_le_mono_nonneg_r; [done|].
      apply Z.div_le_mono; lia.
Qed.

(** An instance: three frames and five bytes decode as the three frames
    do, to 960 bytes; a later call on 15 bytes returns no frame, the five
    bytes left over and the 15 making none. *)
Lemma trailing_bytes_dropped_witness :
  ∃ r r' out log,
    decodeLC3 (lib := Samples.counting_codec) Samples.stale
      Samples.heap65 Samples.lc3Data
    = Ok (r, <[r := out]> Samples.heap65, log)
    ∧ decodeLC3 (lib := Samples.counting_codec) Samples.stale
        (<[Samples.lc3Data := take 60 Samples.three_frames_and_five]>
           Samples.heap65)
        Samples.lc3Data
      = Ok (r', <[r' := out]>
                  (<[Samples.lc3Data := take 60 Samples.three_frames_and_five]>
                     Samples.heap65),
            log)
    ∧ Z.of_nat (length out) = 960
    ∧ ∃ r2 out2 log2,
        decodeLC3 (lib := Samples.counting_codec) Samples.stale'
          (<[r := out]> Samples.heap65) Samples.next
        = Ok (r2, <[r2 := out2]> (<[r := out]> Samples.heap65), log2)
        ∧ Z.of_nat (length out2) = 0.
Proof.
  destruct (trailing_bytes_dropped (lib := Samples.counting_codec)
              (ok := counting_codec_contract) Samples.stale
              Samples.heap65 Samples.lc3Data Samples.three_frames_and_five)
    as [Hdec _]; [by vm_compute..|].
  destruct Hdec as (r & r' & out & log & Hrun & Hcut & Hlen & Hlater);
    [by vm_compute|].
  exists r, r', out, log. split_and!; [exact Hrun|exact Hcut|exact Hlen|].
  destruct (Hlater Samples.stale' Samples.next (replicate 15 x09))
    as (r2 & r2' & out2 & log2 & Hrun2 & _ & Hlen2); [by vm_compute..|].
  by exists r2, out2, log2.
Defined.

(** C3, as the specification has it, fails: 134217745 bytes are 6710887
    frames and five bytes more; their 2147483840 output bytes are more than
    [INT_MAX], [outSize] is negative, the output block is NULL, and the call
    does not succeed. *)
Lemma trailing_bytes_call_fails :
  134217745 `mod` 20 = 5
  ∧ decodeLC3 (lib := Samples.counting_codec) Samples.stale
      {[ Samples.lc3Data := replicate (Z.to_nat 134217745) x00 ]}
      Samples.lc3Data
    = Err NullPointer.
Proof.
  split; [done|].
  rewrite (decodeLC3_overflow (lib := Samples.counting_codec)
             (ok := counting_codec_contract) Samples.stale
             (replicate (Z.to_nat 134217745) x00)).
  - rewrite length_replicate, Z2Nat.id by lia. by vm_compute.
  - apply lookup_singleton_eq.
  - rewrite length_replicate, Z2Nat.id by lia. by vm_compute.
  - rewrite length_replicate, Z2Nat.id by lia. by vm_compute.
Qed.

(** C4, as the code has it. The code a codec call returns is not looked at:
    for an input whose output size is within [INT_MAX], when the call on
    some frame [k] fails (returns a code other than 0), the stream call goes
    on all the same, every frame is given to the codec, and
    the array returned has its full size; the slice of frame [k] holds what
    the failed call stored, over the previous content of that place. *)
Theorem frame_failures_ignored `{lib : Lc3} {ok : Lc3Contract lib}
    (uninit : nat → byte) (h : gmap jarray (list byte)) (a : jarray)
    (input : list byte) :
  h !! a = Some input →
  Z.of_nat (length input) ≤ INT_MAX →
  (Z.of_nat (length input) / 20 * bytesOfFrames ≤ INT_MAX →
   ∀ k, (k < frame_count (Z.of_nat (length input)) 20)%nat →
     (decode_call uninit input k).1.1 ≠ 0 →
     ∃ r h' log out,
       decodeLC3 uninit h a = Ok (r, h', log) ∧ h' !! r = Some out
       ∧ Z.of_nat (length out)
         = Z.of_nat (length input) / 20 * bytesOfFrames
       ∧ (∀ j, (j < frame_count (Z.of_nat (length input)) 20)%nat →
            decode_event uninit input j ∈ log)
       ∧ slice out (Z.to_nat bytesOfFrames) k
         = overlay (decode_call uninit input k).2 (scratch_before uninit k))
  ∧ (Z.of_nat (length input) / bytesPerFrame * 20 ≤ INT_MAX →
     ∀ k, (k < frame_count (Z.of_nat (length input)) bytesPerFrame)%nat →
       (encode_call uninit input k).1.1 ≠ 0 →
       ∃ r h' log out,
         encodeLC3 uninit h a = Ok (r, h', log) ∧ h' !! r = Some out
         ∧ Z.of_nat (length out)
           = Z.of_nat (length input) / bytesPerFrame * 20
         ∧ (∀ j, (j < frame_count (Z.of_nat (length input))
                        bytesPerFrame)%nat →
              encode_event uninit input j ∈ log)
         ∧ slice out 20 k
           = overlay (encode_call uninit input k).2
               (uninit <$> seq (k * 20) 20)).
Proof.
  intros Hin Hlen. split; intros Hfit k Hk Hfail.
  - rewrite (decodeLC3_run uninit h a input Hin Hlen Hfit).
    do 4 eexists.
    split_and!; [done|apply lookup_insert_eq|apply decode_stream_length|..].
    + intros j Hj. apply elem_of_cons. right. apply elem_of_app. left.
      apply list_elem_of_fmap. exists j. split; [done|].
      apply elem_of_seq. unfold output_byte_count. lia.
    + unfold decode_stream. rewrite frames_slice; [done| |done].
      intros. apply decoded_frame_length.
  - rewrite (encodeLC3_run uninit input h a Hin Hlen Hfit).
    do 4 eexists.
    split_and!; [done|apply lookup_insert_eq|apply encode_stream_length|..].
    + intros j Hj. apply elem_of_cons. right. apply elem_of_app. left.
      apply list_elem_of_fmap. exists j. split; [done|].
      apply elem_of_seq. lia.
    + unfold encode_stream. rewrite frames_slice; [done| |done].
      intros. apply encoded_frame_length.
Qed.

(** An instance: the failing codec on the 25-byte input; the frame returned is
    what [malloc] left in the frame buffer. *)
Lemma frame_failures_ignored_witness :
  ∃ r h' log out,
    decodeLC3 (lib := Samples.failing_codec) Samples.stale
      Samples.heap25 Samples.lc3Data = Ok (r, h', log)
    ∧ h' !! r = Some out
    ∧ Z.of_nat (length out) = 320
    ∧ EvDecode 0 0 (-1) ∈ log
    ∧ slice out 320 0 = replicate 320 xaa.
Proof.
  destruct (frame_failures_ignored (lib := Samples.failing_codec)
              (ok := failing_codec_contract) Samples.stale
              Samples.heap25 Samples.lc3Data Samples.one_frame_and_five)
    as [Hdec _]; [by vm_compute..|].
  destruct (Hdec ltac:(by vm_compute) 0%nat)
    as (r & h' & log & out & Hrun & Hout & Hlen & Hlog & Hslice);
    [by vm_compute..|].
  exists r, h', log, out. split_and!; [done..|apply (Hlog 0%nat)|done].
  by vm_compute.
Defined.

(** C4, as the specification has it, fails: with a codec whose call on the
    one frame of a 20-byte input returns -1, [decodeLC3] still returns an
    array of a whole frame of 320 bytes, and so does [encodeLC3] with its 20
    bytes on a 320-byte input. *)
Lemma frame_failure_not_fatal :
  (∃ r h' out,
     decodeLC3 (lib := Samples.failing_codec) Samples.stale
       {[ 5%positive := replicate 20 x01 ]} 5%positive
     = Ok (r, h', [EvSetupDecoder; EvDecode 0 0 (-1); EvFreeDecoder])
     ∧ h' !! r = Some out ∧ length out = 320%nat)
  ∧ (∃ r h' out,
       encodeLC3 (lib := Samples.failing_codec) Samples.stale
         {[ 5%positive := replicate 320 x01 ]} 5%positive
       = Ok (r, h', [EvSetupEncoder; EvEncode 0 0 (-1); EvFreeEncoder])
       ∧ h' !! r = Some out ∧ length out = 20%nat).
Proof.
  split.
  - exists 6%positive, (<[6%positive := replicate 320 xaa]>
                          {[ 5%positive := replicate 20 x01 ]}),
      (replicate 320 xaa).
    split_and!; by vm_compute.
  - exists 6%positive, (<[6%positive := replicate 20 xaa]>
                          {[ 5%positive := replicate 320 x01 ]}),
      (replicate 20 xaa).
    split_and!; by vm_compute.
Qed.

(** C5, as the code has it. [rnNoise] checks no length: for every frame
    array, of whatever length, the denoise library is called on the
    elements of the array, and nothing is done before that call. *)
Theorem denoise_length_unchecked `{rn : RNNoise} (w : world) (st : Z)
    (input : jarray) (frame : list jfloat) :
  w_arrays w !! input = Some frame →
  (rnNoise w st input).1 = [EvProcessFrame st inputArray inputArray].
Proof.
  intros Hin. unfold rnNoise, GetArrayElements. by rewrite Hin.
Qed.

(** An instance: a frame of three samples. *)
Lemma denoise_length_unchecked_witness :
  (rnNoise Samples.short_world Samples.handle Samples.samples).1
  = [EvProcessFrame Samples.handle inputArray inputArray].
Proof.
  apply (denoise_length_unchecked (rn := Samples.muting_denoiser)
           Samples.short_world Samples.handle Samples.samples [1; 2; 3]).
  by vm_compute.
Defined.

(** C5, as the specification has it, fails: a frame of 481 samples, for a
    denoiser whose frames have 480, is not rejected; the library is called
    on it and the call returns the array. For a frame of three samples
    the library is called as well, and the fault is its read past the end
    of the frame. *)
Lemma wrong_length_frame_denoised :
  Z.of_nat 481 ≠ @rnnoise_frame_size Samples.muting_denoiser
  ∧ (∃ w',
       rnNoise Samples.long_world Samples.handle Samples.samples
       = ([EvProcessFrame Samples.handle inputArray inputArray],
          Ok (Samples.samples, w'))
       ∧ w_arrays w' !! Samples.samples
         = Some (replicate 480 0 ++ [7]))
  ∧ rnNoise Samples.short_world Samples.handle Samples.samples
    = ([EvProcessFrame Samples.handle inputArray inputArray],
       Err OutOfBounds).
Proof.
  split_and!; [by vm_compute| |by vm_compute].
  eexists. split; by vm_compute.
Qed.

(** C6. The denoise call works in place: the library is called with one
    and the same buffer as its output and its input, the array returned is
    the array given, and that array now holds the denoised samples in the
    place of the samples given; the state under the handle is the one the
    library left. *)
Theorem denoise_in_place `{rn : RNNoise} (w : world) (st : Z)
    (input : jarray) (frame : list jfloat) (s : DenoiseState) :
  w_arrays w !! input = Some frame →
  w_states w !! st = Some s →
  Z.of_nat (length frame) = rnnoise_frame_size →
  length (rnnoise_process_frame s frame).1.2 = length frame →
  rnNoise w st input
  = ([EvProcessFrame st inputArray inputArray],
     Ok (input,
         {| w_arrays :=
              <[input := (rnnoise_process_frame s frame).1.2]> (w_arrays w);
            w_states :=
              <[st := (rnnoise_process_frame s frame).1.1]> (w_states w) |})).
Proof.
  intros Hin Hst Hlen Hout.
  unfold rnNoise, GetArrayElements. rewrite Hin. f_equal.
  unfold process_frame_at. rewrite Hst, !lookup_singleton_eq.
  rewrite read_bytes_all by done.
  cbn [mbind result_bind].
  destruct (rnnoise_process_frame s frame) as [[s' y] v].
  cbn [fst snd] in Hout |- *.
  rewrite write_bytes_start by lia.
  cbn [mbind result_bind].
  rewrite lookup_insert_eq, overlay_full by done.
  reflexivity.
Qed.

(** An instance: a frame of 480 samples, silenced in its own array. *)
Lemma denoise_in_place_witness :
  rnNoise Samples.full_world Samples.handle Samples.samples
  = ([EvProcessFrame Samples.handle inputArray inputArray],
     Ok (Samples.samples,
         {| w_arrays := <[Samples.samples := replicate 480 0]>
                          (w_arrays Samples.full_world);
            w_states := <[Samples.handle := 1]>
                          (w_states Samples.full_world) |})).
Proof.
  apply (denoise_in_place (rn := Samples.muting_denoiser)
           Samples.full_world Samples.handle Samples.samples
           (replicate 480 7) 0); by vm_compute.
Defined.

(** C7. For the geometry of both entry points (10000 us, 16000 Hz), and a
    library whose frame has a number of samples that doubled fits
    [uint16_t], the samples per frame are what [lc3_frame_samples] reports
    and the bytes per frame are twice that, the same in [decodeLC3] and in
    [encodeLC3], whatever the call. *)
Theorem frame_geometry `{lib : Lc3} :
  0 ≤ lc3_frame_samples 10000 16000 < 32768 →
  sampleOfFrames = lc3_frame_samples 10000 16000
  ∧ bytesOfFrames = sampleOfFrames * 2
  ∧ samplesPerFrame = lc3_frame_samples 10000 16000
  ∧ bytesPerFrame = samplesPerFrame * 2.
Proof.
  intros Hfit.
  assert (sampleOfFrames = lc3_frame_samples 10000 16000) as Hs
    by (apply to_uint16_id; lia).
  assert (bytesOfFrames = sampleOfFrames * 2) as Hb
    by (unfold bytesOfFrames; rewrite Hs; apply to_uint16_id; lia).
  done.
Qed.

(** An instance: 160 samples and 320 bytes per frame for the counting codec. *)
Lemma frame_geometry_witness :
  @sampleOfFrames Samples.counting_codec = 160
  ∧ @bytesOfFrames Samples.counting_codec = 160 * 2
  ∧ @samplesPerFrame Samples.counting_codec = 160
  ∧ @bytesPerFrame Samples.counting_codec = 160 * 2.
Proof.
  apply (frame_geometry (lib := Samples.counting_codec)). by vm_compute.
Defined.

(** C8. The input array is left as it was: whenever [decodeLC3] or
    [encodeLC3] returns, the input array holds the bytes it held before the
    call, and so does every other array that was in the heap; and the calls
    do return, for every input whose output size is within [INT_MAX]. *)
Theorem input_array_unchanged `{lib : Lc3} {ok : Lc3Contract lib}
    (uninit : nat → byte) (h : gmap jarray (list byte)) (a : jarray)
    (input : list byte) :
  h !! a = Some input →
  (∀ r h' log,
     decodeLC3 uninit h a = Ok (r, h', log) →
     h' !! a = Some input ∧ ∀ b, is_Some (h !! b) → h' !! b = h !! b)
  ∧ (∀ r h' log,
       encodeLC3 uninit h a = Ok (r, h', log) →
       h' !! a = Some input ∧ ∀ b, is_Some (h !! b) → h' !! b = h !! b)
  ∧ (Z.of_nat (length input) ≤ INT_MAX →
     Z.of_nat (length input) / 20 * bytesOfFrames ≤ INT_MAX →
     ∃ r h' log, decodeLC3 uninit h a = Ok (r, h', log))
  ∧ (Z.of_nat (length input) ≤ INT_MAX →
     Z.of_nat (length input) / bytesPerFrame * 20 ≤ INT_MAX →
     ∃ r h' log, encodeLC3 uninit h a = Ok (r, h', log)).
Proof.
  intros Hin. split_and!.
  - intros r h' log Hrun.
    pose proof (decodeLC3_heap uninit h h' a r log Hrun) as Hkeep.
    split; [|done]. rewrite Hkeep; [done|by eexists].
  - intros r h' log Hrun.
    pose proof (encodeLC3_heap uninit h h' a r log Hrun) as Hkeep.
    split; [|done]. rewrite Hkeep; [done|by eexists].
  - intros Hlen Hfit.
    rewrite (decodeLC3_run uninit h a input Hin Hlen Hfit). by do 3 eexists.
  - intros Hlen Hfit.
    rewrite (encodeLC3_run uninit input h a Hin Hlen Hfit). by do 3 eexists.
Qed.

(** An instance: the 25-byte input is still there after the call. *)
Lemma input_array_unchanged_witness :
  ∃ r h' log,
    decodeLC3 (lib := Samples.counting_codec) Samples.stale
      Samples.heap25 Samples.lc3Data = Ok (r, h', log)
    ∧ h' !! Samples.lc3Data = Some Samples.one_frame_and_five.
Proof.
  destruct (input_array_unchanged (lib := Samples.counting_codec)
              (ok := counting_codec_contract) Samples.stale
              Samples.heap25 Samples.lc3Data Samples.one_frame_and_five)
    as (Hkept & _ & Hdec & _); [by vm_compute|].
  destruct Hdec as (r & h' & log & Hrun); [by vm_compute..|].
  exists r, h', log. split; [done|]. by apply (Hkept r h' log).
Defined.

(** C9. For an input whose output size is within [INT_MAX]: in
    [decodeLC3] and in [encodeLC3] the codec state is set up before any
    frame is handled, the frame calls come next, each in the state the one
    before it left, starting from the state just set up (the log shows the
    code each of these calls returned), the codec memory is released once,
    after the last frame call, and nothing is called after the release.
    No state lasts from one call to the next: calling again on the heap the
    call left gives the same codec calls and the same output bytes, and it
    gives the same codec calls in the same states whatever [malloc] leaves in
    memory by then, provided the library sets up the same state in it (with
    the same output bytes when the codec stores whole frames). *)
Theorem codec_state_lifecycle `{lib : Lc3} {ok : Lc3Contract lib}
    (uninit : nat → byte) (h : gmap jarray (list byte)) (a : jarray)
    (input : list byte) :
  h !! a = Some input →
  Z.of_nat (length input) ≤ INT_MAX →
  (Z.of_nat (length input) / 20 * bytesOfFrames ≤ INT_MAX →
   ∃ r r' out log,
     decodeLC3 uninit h a = Ok (r, <[r := out]> h, log)
     ∧ log = EvSetupDecoder
               :: ((λ k, EvDecode (Z.of_nat k * 20)
                           (Z.of_nat k * bytesOfFrames)
                           (lc3_decode (decoder_before uninit input k)
                              (slice input 20 k) 20 LC3_PCM_FORMAT_S16 1).1.1)
                     <$> seq 0 (frame_count (Z.of_nat (length input)) 20))
               ++ [EvFreeDecoder]
     ∧ filter (λ e, e = EvSetupDecoder) log = [EvSetupDecoder]
     ∧ filter (λ e, e = EvFreeDecoder) log = [EvFreeDecoder]
     ∧ decoder_before uninit input 0
       = lc3_setup_decoder dtUs srHz 0
           (malloc uninit (to_uint (lc3_decoder_size dtUs srHz)))
     ∧ (∀ k, decoder_before uninit input (S k)
             = (lc3_decode (decoder_before uninit input k) (slice input 20 k)
                  20 LC3_PCM_FORMAT_S16 1).1.2)
     ∧ decodeLC3 uninit (<[r := out]> h) a
       = Ok (r', <[r' := out]> (<[r := out]> h), log)
     ∧ ∀ uninit' : nat → byte,
         lc3_setup_decoder dtUs srHz 0
           (malloc uninit' (to_uint (lc3_decoder_size dtUs srHz)))
         = lc3_setup_decoder dtUs srHz 0
             (malloc uninit (to_uint (lc3_decoder_size dtUs srHz))) →
         ∃ r2 out2,
           decodeLC3 uninit' (<[r := out]> h) a
           = Ok (r2, <[r2 := out2]> (<[r := out]> h), log)
           ∧ (∀ k, decoder_before uninit' input k
                   = decoder_before uninit input k)
           ∧ ((∀ k, (k < frame_count (Z.of_nat (length input)) 20)%nat →
                 length (lc3_decode (decoder_before uninit input k)
                           (slice input 20 k) 20 LC3_PCM_FORMAT_S16 1).2
                 = Z.to_nat bytesOfFrames) →
              out2 = out))
  ∧ (Z.of_nat (length input) / bytesPerFrame * 20 ≤ INT_MAX →
     ∃ r r' out log,
       encodeLC3 uninit h a = Ok (r, <[r := out]> h, log)
       ∧ log = EvSetupEncoder
                 :: ((λ k, EvEncode (Z.of_nat k * bytesPerFrame)
                             (Z.of_nat k * 20)
                             (lc3_encode (encoder_before uninit input k)
                                LC3_PCM_FORMAT_S16
                                (slice input (Z.to_nat bytesPerFrame) k)
                                1 20).1.1)
                       <$> seq 0 (frame_count (Z.of_nat (length input))
                                    bytesPerFrame))
                 ++ [EvFreeEncoder]
       ∧ filter (λ e, e = EvSetupEncoder) log = [EvSetupEncoder]
       ∧ filter (λ e, e = EvFreeEncoder) log = [EvFreeEncoder]
       ∧ encoder_before uninit input 0
         = lc3_setup_encoder dtUs srHz srHz
             (malloc uninit (to_uint (lc3_encoder_size dtUs srHz)))
       ∧ (∀ k, encoder_before uninit input (S k)
               = (lc3_encode (encoder_before uninit input k)
                    LC3_PCM_FORMAT_S16
                    (slice input (Z.to_nat bytesPerFrame) k) 1 20).1.2)
       ∧ encodeLC3 uninit (<[r := out]> h) a
         = Ok (r', <[r' := out]> (<[r := out]> h), log)
       ∧ ∀ uninit' : nat → byte,
           lc3_setup_encoder dtUs srHz srHz
             (malloc uninit' (to_uint (lc3_encoder_size dtUs srHz)))
           = lc3_setup_encoder dtUs srHz srHz
               (malloc uninit (to_uint (lc3_encoder_size dtUs srHz))) →
           ∃ r2 out2,
             encodeLC3 uninit' (<[r := out]> h) a
             = Ok (r2, <[r2 := out2]> (<[r := out]> h), log)
             ∧ (∀ k, encoder_before uninit' input k
                     = encoder_before uninit input k)
             ∧ ((∀ k, (k < frame_count (Z.of_nat (length input))
                             bytesPerFrame)%nat →
                   length (lc3_encode (encoder_before uninit input k)
                             LC3_PCM_FORMAT_S16
                             (slice input (Z.to_nat bytesPerFrame) k)
                             1 20).2
                   = 20%nat) →
                out2 = out)).
Proof.
  intros Hin Hlen.
  assert (∀ out, <[fresh (dom h) := out]> h !! a = Some input) as Hkeep.
  { intros out. rewrite lookup_insert_ne; [done|]. intros Heq.
    assert (a ∈ dom h) as Ha by (apply elem_of_dom; eauto).
    rewrite <- Heq in Ha. by apply is_fresh in Ha. }
  split; intros Hfit.
  - eexists (fresh (dom h)), _, (decode_stream uninit input), _.
    rewrite (decodeLC3_run uninit h a input Hin Hlen Hfit).
    rewrite (decodeLC3_run uninit _ a input (Hkeep _) Hlen Hfit).
    split_and!; [done|done|..|done|done|done|].
    + apply once_in_log; [|by left].
      apply Forall_fmap, Forall_forall. by intros k _.
    + apply once_in_log; [|by right].
      apply Forall_fmap, Forall_forall. by intros k _.
    + intros uninit' Hsetup.
      change (fresh_decoder uninit' = fresh_decoder uninit) in Hsetup.
      rewrite (decodeLC3_run uninit' _ a input (Hkeep _) Hlen Hfit).
      assert (decode_event uninit' input
                <$> seq 0 (frame_count (Z.of_nat (length input))
                             output_byte_count)
              = decode_event uninit input
                  <$> seq 0 (frame_count (Z.of_nat (length input))
                               output_byte_count)) as ->.
      { apply fmap_seq_ext. intros k Hk. unfold decode_event.
        by rewrite (decode_call_uninit uninit uninit' input Hsetup). }
      do 2 eexists. split_and!; [done| |].
      * exact (decoder_before_uninit uninit uninit' input Hsetup).
      * intros Hfull.
        exact (decode_stream_uninit uninit uninit' input Hsetup Hfull).
  - eexists (fresh (dom h)), _, (encode_stream uninit input), _.
    rewrite (encodeLC3_run uninit input h a Hin Hlen Hfit).
    rewrite (encodeLC3_run uninit input _ a (Hkeep _) Hlen Hfit).
    split_and!; [done|done|..|done|done|done|].
    + apply once_in_log; [|by left].
      apply Forall_fmap, Forall_forall. by intros k _.
    + apply once_in_log; [|by right].
      apply Forall_fmap, Forall_forall. by intros k _.
    + intros uninit' Hsetup.
      change (fresh_encoder uninit' = fresh_encoder uninit) in Hsetup.
      rewrite (encodeLC3_run uninit' input _ a (Hkeep _) Hlen Hfit).
      assert (encode_event uninit' input
                <$> seq 0 (frame_count (Z.of_nat (length input))
                             bytesPerFrame)
              = encode_event uninit input
                  <$> seq 0 (frame_count (Z.of_nat (length input))
                               bytesPerFrame)) as ->.
      { apply fmap_seq_ext. intros k Hk. unfold encode_event.
        by rewrite (encode_call_uninit uninit uninit' input Hsetup). }
      do 2 eexists. split_and!; [done| |].
      * exact (encoder_before_uninit uninit uninit' input Hsetup).
      * intros Hfull.
        exact (encode_stream_uninit uninit uninit' input Hsetup Hfull).
Qed.

(** An instance, for the codec whose return code is the number of frames
    its state has seen: three frames decoded, two encoded, and the same
    again, from 0, on a second call with other bytes left in memory. *)
Lemma codec_state_lifecycle_witness :
  (∃ r out log,
     decodeLC3 (lib := Samples.numbering_codec) Samples.stale
       Samples.heap65 Samples.lc3Data
     = Ok (r, <[r := out]> Samples.heap65, log)
     ∧ log = [EvSetupDecoder; EvDecode 0 0 0; EvDecode 20 320 1;
              EvDecode 40 640 2; EvFreeDecoder]
     ∧ ∃ r2,
         decodeLC3 (lib := Samples.numbering_codec) Samples.stale'
           (<[r := out]> Samples.heap65) Samples.lc3Data
         = Ok (r2, <[r2 := out]> (<[r := out]> Samples.heap65), log))
  ∧ (∃ r out log,
       encodeLC3 (lib := Samples.numbering_codec) Samples.stale
         Samples.heap700 Samples.lc3Data
       = Ok (r, <[r := out]> Samples.heap700, log)
       ∧ log = [EvSetupEncoder; EvEncode 0 0 0; EvEncode 320 20 1;
                EvFreeEncoder]
       ∧ ∃ r2,
           encodeLC3 (lib := Samples.numbering_codec) Samples.stale'
             (<[r := out]> Samples.heap700) Samples.lc3Data
           = Ok (r2, <[r2 := out]> (<[r := out]> Samples.heap700), log)).
Proof.
  split.
  - destruct (codec_state_lifecycle (lib := Samples.numbering_codec)
                (ok := numbering_codec_contract) Samples.stale
                Samples.heap65 Samples.lc3Data Samples.three_frames_and_five)
      as [Hdec _]; [by vm_compute..|].
    destruct Hdec
      as (r & r' & out & log & Hrun & Hlog & _ & _ & _ & _ & _ & Hagain);
      [by vm_compute|].
    exists r, out, log. split_and!; [exact Hrun|exact Hlog|].
    destruct (Hagain Samples.stale') as (r2 & out2 & Hrun2 & _ & Hsame);
      [done|].
    exists r2. rewrite Hrun2, Hsame; [done|].
    intros k _. change (length (replicate 320 (default x00
      (head (slice Samples.three_frames_and_five 20 k)))) = 320%nat).
    apply length_replicate.
  - destruct (codec_state_lifecycle (lib := Samples.numbering_codec)
                (ok := numbering_codec_contract) Samples.stale
                Samples.heap700 Samples.lc3Data Samples.two_frames_and_sixty)
      as [_ Henc]; [by vm_compute..|].
    destruct Henc
      as (r & r' & out & log & Hrun & Hlog & _ & _ & _ & _ & _ & Hagain);
      [by vm_compute|].
    exists r, out, log. split_and!; [exact Hrun|exact Hlog|].
    destruct (Hagain Samples.stale') as (r2 & out2 & Hrun2 & _ & Hsame);
      [done|].
    exists r2. rewrite Hrun2, Hsame; [done|].
    intros k _. change (length (replicate 20 (default x00
      (head (slice Samples.two_frames_and_sixty 320 k)))) = 20%nat).
    apply length_replicate.
Defined.

(** C9, as the specification has it, fails: 134217780 bytes are 6710889
    frames, whose 2147484480 output bytes are more than [INT_MAX]; the
    decoder is set up, the first round goes through the NULL output block,
    and the codec memory is not released. *)
Lemma codec_state_not_released :
  decodeLC3 (lib := Samples.counting_codec) Samples.stale
    {[ Samples.lc3Data := replicate (Z.to_nat 134217780) x00 ]}
    Samples.lc3Data
  = Err NullPointer.
Proof.
  rewrite (decodeLC3_overflow (lib := Samples.counting_codec)
             (ok := counting_codec_contract) Samples.stale
             (replicate (Z.to_nat 134217780) x00)).
  - rewrite length_replicate, Z2Nat.id by lia. by vm_compute.
  - apply lookup_singleton_eq.
  - rewrite length_replicate, Z2Nat.id by lia. by vm_compute.
  - rewrite length_replicate, Z2Nat.id by lia. by vm_compute.
Qed.

(** C10 fails on the code: 268435460 bytes are 13421773 frames, whose
    4294967360 output bytes wrap around to an [outSize] of 64; the output
    block has 64 bytes, and the first round of the loop copies a frame of
    320 bytes to it. *)
Theorem output_block_overrun :
  to_int (268435460 ÷ 20 * @bytesOfFrames Samples.counting_codec) = 64
  ∧ decodeLC3 (lib := Samples.counting_codec) Samples.stale
      {[ Samples.lc3Data := replicate (Z.to_nat 268435460) x00 ]}
      Samples.lc3Data
    = Err OutOfBounds.
Proof.
  split; [by vm_compute|].
  rewrite (decodeLC3_overflow (lib := Samples.counting_codec)
             (ok := counting_codec_contract) Samples.stale
             (replicate (Z.to_nat 268435460) x00)).
  - rewrite length_replicate, Z2Nat.id by lia. by vm_compute.
  - apply lookup_singleton_eq.
  - rewrite length_replicate, Z2Nat.id by lia. by vm_compute.
  - rewrite length_replicate, Z2Nat.id by lia. by vm_compute.
Qed.

(** * Further properties of the bridge *)

(** ** Inputs below one frame *)

Lemma for_frames_stop {S : Type} (fuel : nat) (len step : Z)
    (body : Z → S → result S) (i : Z) (s : S) :
  to_int (len - step) < i → for_frames fuel len step body i s = Ok s.
Proof.
  intros Hstop. destruct fuel; simpl;
    by destruct (Z.leb_spec i (to_int (len - step))); [lia|].
Qed.

(** The array made for an output of no frame at all. *)
Lemma new_array_empty (h : gmap jarray (list byte)) (a : jarray)
    (elems : list byte) (log : list event) :
  NewByteArray h 0
    ≫= (λ '(resultArray, h1),
          SetByteArrayRegion h1 resultArray 0 0 (Some [])
            ≫= λ h2, Ok (resultArray,
                         ReleaseArrayElements h2 a elems JNI_ABORT, log))
  = Ok (fresh (dom h), <[fresh (dom h) := []]> h, log).
Proof.
  unfold NewByteArray. change (0 <? 0) with false.
  cbn [mbind result_bind]. unfold SetByteArrayRegion.
  rewrite lookup_insert_eq. change (Z.to_nat 0) with 0%nat.
  change (Z.to_nat (0 + 0)) with 0%nat.
  cbn [replicate length take drop app andb].
  change (0 + 0 <=? Z.of_nat 0) with true.
  change ((0 <=? 0) && (0 <=? 0) && true) with true.
  change (read_ptr (Some []) 0 0) with (Ok (@nil byte)).
  cbn [mbind result_bind app]. unfold ReleaseArrayElements.
  change (JNI_ABORT =? JNI_ABORT) with true. cbn iota.
  by rewrite insert_insert_eq.
Qed.

(** X2. On an input of less than one frame (the empty input included) no
    codec call is made, whatever the codec library: the codec is set up and
    released, and the array returned is a fresh, empty one. *)
Theorem short_input_no_codec_call `{lib : Lc3} (uninit : nat → byte)
    (h : gmap jarray (list byte)) (a : jarray) (input : list byte) :
  h !! a = Some input →
  (Z.of_nat (length input) < 20 →
   decodeLC3 uninit h a
   = Ok (fresh (dom h), <[fresh (dom h) := []]> h,
         [EvSetupDecoder; EvFreeDecoder]))
  ∧ (Z.of_nat (length input) < bytesPerFrame →
     encodeLC3 uninit h a
     = Ok (fresh (dom h), <[fresh (dom h) := []]> h,
           [EvSetupEncoder; EvFreeEncoder])).
Proof.
  intros Hin. split; intros Hshort.
  - unfold decodeLC3, GetArrayElements. rewrite Hin.
    cbn [mbind result_bind]. unfold int_div.
    change (output_byte_count =? 0) with false. cbn [mbind result_bind].
    rewrite Z.quot_small by (unfold output_byte_count; lia).
    rewrite Z.mul_0_l. change (to_int 0) with 0.
    rewrite for_frames_stop
      by (rewrite to_int_id; unfold INT_MAX, output_byte_count; lia).
    cbn [mbind result_bind ds_outArray ds_log]. apply new_array_empty.
  - pose proof (Z.mod_pos_bound (samplesPerFrame * 2) 65536 ltac:(lia)) as HB.
    fold (to_uint16 (samplesPerFrame * 2)) in HB. fold bytesPerFrame in HB.
    unfold encodeLC3, GetArrayElements. rewrite Hin.
    cbn [mbind result_bind]. unfold int_div.
    destruct (Z.eqb_spec bytesPerFrame 0); [lia|]. cbn [mbind result_bind].
    rewrite Z.quot_small by lia.
    rewrite Z.mul_0_l. change (to_int 0) with 0.
    rewrite for_frames_stop by (rewrite to_int_id; unfold INT_MAX; lia).
    cbn [mbind result_bind es_encodedData es_log]. apply new_array_empty.
Qed.

(** An instance: seven bytes, decoded and encoded. *)
Lemma short_input_no_codec_call_witness :
  decodeLC3 (lib := Samples.counting_codec) Samples.stale
    {[ Samples.lc3Data := replicate 7 x01 ]} Samples.lc3Data
  = Ok (6%positive,
        <[6%positive := []]> {[ Samples.lc3Data := replicate 7 x01 ]},
        [EvSetupDecoder; EvFreeDecoder])
  ∧ encodeLC3 (lib := Samples.counting_codec) Samples.stale
      {[ Samples.lc3Data := replicate 7 x01 ]} Samples.lc3Data
    = Ok (6%positive,
          <[6%positive := []]> {[ Samples.lc3Data := replicate 7 x01 ]},
          [EvSetupEncoder; EvFreeEncoder]).
Proof.
  destruct (short_input_no_codec_call (lib := Samples.counting_codec)
              Samples.stale {[ Samples.lc3Data := replicate 7 x01 ]}
              Samples.lc3Data (replicate 7 x01))
    as [Hdec Henc]; [by vm_compute|].
  split; [apply Hdec|apply Henc]; by vm_compute.
Defined.

(** ** The array returned *)

Lemma NewByteArray_fresh (h h1 : gmap jarray (list byte)) (size : Z)
    (r : jarray) :
  NewByteArray h size = Ok (r, h1) →
  h !! r = None ∧ h1 = <[r := replicate (Z.to_nat size) x00]> h.
Proof.
  unfold NewByteArray. destruct (size <? 0); [done|].
  intros [= <- <-]. split; [|done].
  apply not_elem_of_dom, is_fresh.
Qed.

Lemma SetByteArrayRegion_insert (h1 h2 : gmap jarray (list byte))
    (r : jarray) (start len : Z) (buf : ptr) :
  SetByteArrayRegion h1 r start len buf = Ok h2 →
  ∃ arr, h2 = <[r := arr]> h1.
Proof.
  unfold SetByteArrayRegion. destruct (h1 !! r) as [arr|]; [|done].
  destruct (_ && _); [|done].
  destruct (read_ptr buf 0 len) as [data|]; [|done].
  intros [= <-]. by eexists.
Qed.

(** X3. Whenever [decodeLC3] or [encodeLC3] returns, the array returned is
    a new one: it was not in the heap before, so it is never the input
    array, and the heap after the call is the heap before it with that one
    array added. *)
Theorem result_array_fresh `{lib : Lc3} (uninit : nat → byte)
    (h h' : gmap jarray (list byte)) (a r : jarray) (log : list event) :
  decodeLC3 uninit h a = Ok (r, h', log)
  ∨ encodeLC3 uninit h a = Ok (r, h', log) →
  h !! r = None ∧ r ≠ a ∧ ∃ out, h' = <[r := out]> h.
Proof.
  assert (∀ elems size buf h1 h2 resultArray,
            GetArrayElements h a = Ok elems →
            NewByteArray h size = Ok (resultArray, h1) →
            SetByteArrayRegion h1 resultArray 0 size buf = Ok h2 →
            h !! resultArray = None ∧ resultArray ≠ a
            ∧ ∃ out, h2 = <[resultArray := out]> h) as Htail.
  { intros elems size buf h1 h2 resultArray Hget Hnew Hset.
    destruct (NewByteArray_fresh _ _ _ _ Hnew) as [Hfresh ->].
    destruct (SetByteArrayRegion_insert _ _ _ _ _ _ Hset) as [arr ->].
    split_and!; [done| |].
    - intros ->. unfold GetArrayElements in Hget. by rewrite Hfresh in Hget.
    - exists arr. by rewrite insert_insert_eq. }
  intros [Hrun|Hrun].
  - unfold decodeLC3 in Hrun.
    returned Hrun as lc3Bytes eqn:Hget.
    returned Hrun as q eqn:Hq.
    returned Hrun as s eqn:Hloop.
    returned Hrun as [resultArray h1] eqn:Hnew.
    returned Hrun as h2 eqn:Hset.
    injection Hrun as <- <- <-. by eapply Htail.
  - unfold encodeLC3 in Hrun.
    returned Hrun as pcmBytes eqn:Hget.
    returned Hrun as q eqn:Hq.
    returned Hrun as s eqn:Hloop.
    returned Hrun as [resultArray h1] eqn:Hnew.
    returned Hrun as h2 eqn:Hset.
    injection Hrun as <- <- <-. by eapply Htail.
Qed.

(** An instance: decoding the 25-byte input adds array 6 to the heap. *)
Lemma result_array_fresh_witness :
  Samples.heap25 !! 6%positive = None
  ∧ 6%positive ≠ Samples.lc3Data
  ∧ ∃ out, <[6%positive := replicate 320 x01]> Samples.heap25
           = <[6%positive := out]> Samples.heap25.
Proof.
  apply (result_array_fresh (lib := Samples.counting_codec) Samples.stale
           Samples.heap25 _ Samples.lc3Data 6%positive
           [EvSetupDecoder; EvDecode 0 0 0; EvFreeDecoder]).
  left. by vm_compute.
Defined.

(** ** The bytes of a frame that the codec did not store *)

(** X4. In the array that [decodeLC3] returns, the part of a frame that
    the codec call did not store (all of it, when the call failed) is zero
    for every frame after the first, since the frame buffer is cleared after
    each round; for the first frame it is what [malloc] left in the frame
    buffer, which is not cleared before the loop. *)
Theorem decoded_frame_padding `{lib : Lc3} {ok : Lc3Contract lib}
    (uninit : nat → byte) (h : gmap jarray (list byte)) (a : jarray)
    (input : list byte) :
  h !! a = Some input →
  Z.of_nat (length input) ≤ INT_MAX →
  Z.of_nat (length input) / 20 * bytesOfFrames ≤ INT_MAX →
  ∃ r h' log out,
    decodeLC3 uninit h a = Ok (r, h', log) ∧ h' !! r = Some out
    ∧ ∀ k, (k < frame_count (Z.of_nat (length input)) 20)%nat →
        let pcm := (decode_call uninit input k).2 in
        let rest := (Z.to_nat bytesOfFrames - length pcm)%nat in
        slice out (Z.to_nat bytesOfFrames) k
        = pcm ++ match k with
                 | O => uninit <$> seq (length pcm) rest
                 | S _ => replicate rest x00
                 end.
Proof.
  intros Hin Hlen Hfit.
  rewrite (decodeLC3_run uninit h a input Hin Hlen Hfit).
  do 4 eexists. split_and!; [done|apply lookup_insert_eq|].
  intros k Hk pcm rest. unfold decode_stream.
  rewrite frames_slice; [| |done].
  - unfold decoded_frame, overlay. fold pcm. f_equal.
    destruct k as [|k]; simpl.
    + by rewrite <- fmap_drop, drop_seq.
    + by rewrite drop_replicate.
  - intros. apply decoded_frame_length.
Qed.

(** An instance: the failing codec stores nothing, and the one frame of
    the 25-byte input comes back as 320 bytes of what [malloc] left. *)
Lemma decoded_frame_padding_witness :
  ∃ r h' log out,
    decodeLC3 (lib := Samples.failing_codec) Samples.stale
      Samples.heap25 Samples.lc3Data = Ok (r, h', log)
    ∧ h' !! r = Some out
    ∧ slice out 320 0 = replicate 320 xaa.
Proof.
  destruct (decoded_frame_padding (lib := Samples.failing_codec)
              (ok := failing_codec_contract) Samples.stale
              Samples.heap25 Samples.lc3Data Samples.one_frame_and_five)
    as (r & h' & log & out & Hrun & Hout & Hframes); [by vm_compute..|].
  exists r, h', log, out. split_and!; [done..|].
  apply (Hframes 0%nat). by vm_compute.
Defined.

(** X5. In the array that [encodeLC3] returns, the part of a frame that
    the codec call did not store is what [malloc] left at that place of the
    output block: the block is never cleared. *)
Theorem encoded_frame_tail `{lib : Lc3} {ok : Lc3Contract lib}
    (uninit : nat → byte) (h : gmap jarray (list byte)) (a : jarray)
    (input : list byte) :
  h !! a = Some input →
  Z.of_nat (length input) ≤ INT_MAX →
  Z.of_nat (length input) / bytesPerFrame * 20 ≤ INT_MAX →
  ∃ r h' log out,
    encodeLC3 uninit h a = Ok (r, h', log) ∧ h' !! r = Some out
    ∧ ∀ k, (k < frame_count (Z.of_nat (length input)) bytesPerFrame)%nat →
        let data := (encode_call uninit input k).2 in
        slice out 20 k
        = data ++ (uninit <$> seq (k * 20 + length data)
                                  (20 - length data)).
Proof.
  intros Hin Hlen Hfit.
  rewrite (encodeLC3_run uninit input h a Hin Hlen Hfit).
  do 4 eexists. split_and!; [done|apply lookup_insert_eq|].
  intros k Hk data. unfold encode_stream.
  rewrite frames_slice; [| |done].
  - unfold encoded_frame, overlay. fold data. f_equal.
    by rewrite <- fmap_drop, drop_seq.
  - intros. apply encoded_frame_length.
Qed.

(** An instance: the failing codec on one frame of samples gives 20 bytes
    of what [malloc] left. *)
Lemma encoded_frame_tail_witness :
  ∃ r h' log out,
    encodeLC3 (lib := Samples.failing_codec) Samples.stale
      {[ Samples.lc3Data := replicate 320 x01 ]} Samples.lc3Data
    = Ok (r, h', log)
    ∧ h' !! r = Some out
    ∧ slice out 20 0 = replicate 20 xaa.
Proof.
  destruct (encoded_frame_tail (lib := Samples.failing_codec)
              (ok := failing_codec_contract) Samples.stale
              {[ Samples.lc3Data := replicate 320 x01 ]}
              Samples.lc3Data (replicate 320 x01))
    as (r & h' & log & out & Hrun & Hout & Hframes); [by vm_compute..|].
  exists r, h', log, out. split_and!; [done..|].
  apply (Hframes 0%nat). by vm_compute.
Defined.

(** X6. When every codec call of a stream stores a whole output frame, the
    array returned is what the calls stored, one frame after the other, and
    nothing else: no byte of it comes from the frame buffer or from the
    output block as [malloc] left them. *)
Theorem whole_frames_concatenated `{lib : Lc3} {ok : Lc3Contract lib}
    (uninit : nat → byte) (h : gmap jarray (list byte)) (a : jarray)
    (input : list byte) :
  h !! a = Some input →
  Z.of_nat (length input) ≤ INT_MAX →
  (Z.of_nat (length input) / 20 * bytesOfFrames ≤ INT_MAX →
   (∀ k, (k < frame_count (Z.of_nat (length input)) 20)%nat →
      length (decode_call uninit input k).2 = Z.to_nat bytesOfFrames) →
   ∃ r h' log,
     decodeLC3 uninit h a = Ok (r, h', log)
     ∧ h' !! r
       = Some (mjoin ((λ k, (decode_call uninit input k).2)
                        <$> seq 0 (frame_count (Z.of_nat (length input))
                                     20))))
  ∧ (Z.of_nat (length input) / bytesPerFrame * 20 ≤ INT_MAX →
     (∀ k, (k < frame_count (Z.of_nat (length input)) bytesPerFrame)%nat →
        length (encode_call uninit input k).2 = 20%nat) →
     ∃ r h' log,
       encodeLC3 uninit h a = Ok (r, h', log)
       ∧ h' !! r
         = Some (mjoin ((λ k, (encode_call uninit input k).2)
                          <$> seq 0 (frame_count (Z.of_nat (length input))
                                       bytesPerFrame)))).
Proof.
  intros Hin Hlen. split; intros Hfit Hfull.
  - rewrite (decodeLC3_run uninit h a input Hin Hlen Hfit).
    do 3 eexists. split; [done|]. rewrite lookup_insert_eq.
    unfold decode_stream. do 2 f_equal. apply fmap_seq_ext. intros k Hk.
    apply overlay_full. rewrite scratch_before_length. by apply Hfull.
  - rewrite (encodeLC3_run uninit input h a Hin Hlen Hfit).
    do 3 eexists. split; [done|]. rewrite lookup_insert_eq.
    unfold encode_stream. do 2 f_equal. apply fmap_seq_ext. intros k Hk.
    apply overlay_full. rewrite length_fmap, length_seq. by apply Hfull.
Qed.

(** An instance: the counting codec on the 25-byte input. *)
Lemma whole_frames_concatenated_witness :
  ∃ r h' log,
    decodeLC3 (lib := Samples.counting_codec) Samples.stale
      Samples.heap25 Samples.lc3Data = Ok (r, h', log)
    ∧ h' !! r = Some (replicate 320 x01).
Proof.
  destruct (whole_frames_concatenated (lib := Samples.counting_codec)
              (ok := counting_codec_contract) Samples.stale
              Samples.heap25 Samples.lc3Data Samples.one_frame_and_five)
    as [Hdec _]; [by vm_compute..|].
  destruct Hdec as (r & h' & log & Hrun & Hout).
  - by vm_compute.
  - intros k Hk. change (length (replicate 320 (default x00
      (head (slice Samples.one_frame_and_five 20 k)))) = 320%nat).
    apply length_replicate.
  - exists r, h', log. split; [done|]. rewrite Hout. by vm_compute.
Defined.

(** ** One call after the other *)

(** X7. Encoding and then decoding what came out: both calls succeed, and
    the array decoded has as many bytes as the whole frames of the samples
    given, so as many as the samples themselves when these are whole
    frames. No size bound is needed for the second call. *)
Theorem encode_then_decode_length `{lib : Lc3} {ok : Lc3Contract lib}
    (uninit : nat → byte) (h : gmap jarray (list byte)) (a : jarray)
    (pcm : list byte) :
  h !! a = Some pcm →
  Z.of_nat (length pcm) ≤ INT_MAX →
  Z.of_nat (length pcm) / bytesPerFrame * 20 ≤ INT_MAX →
  ∃ r1 h1 log1 r2 h2 log2 out,
    encodeLC3 uninit h a = Ok (r1, h1, log1)
    ∧ decodeLC3 uninit h1 r1 = Ok (r2, h2, log2)
    ∧ h2 !! r2 = Some out
    ∧ Z.of_nat (length out)
      = Z.of_nat (length pcm) / bytesPerFrame * bytesPerFrame
    ∧ (Z.of_nat (length pcm) `mod` bytesPerFrame = 0 →
       length out = length pcm).
Proof.
  intros Hin Hlen Hfit. pose proof bytesPerFrame_range as HB.
  rewrite (encodeLC3_run uninit pcm h a Hin Hlen Hfit).
  pose proof (encode_stream_length uninit pcm) as Henc.
  unfold encodedFrameSize in Henc.
  assert (0 ≤ Z.of_nat (length pcm) / bytesPerFrame) as Hq
    by (apply Z.div_pos; lia).
  pose proof (Z.mul_div_le (Z.of_nat (length pcm)) bytesPerFrame) as Hle.
  assert (Z.of_nat (length (encode_stream uninit pcm)) / output_byte_count
          = Z.of_nat (length pcm) / bytesPerFrame) as Hframes
    by (rewrite Henc; apply Z.div_mul; done).
  eexists (fresh (dom h)),
    (<[fresh (dom h) := encode_stream uninit pcm]> h), _, _, _, _, _.
  rewrite (decodeLC3_run uninit _ _ (encode_stream uninit pcm)
             (lookup_insert_eq _ _ _)).
  - split_and!; [done|done|apply lookup_insert_eq|..].
    + rewrite decode_stream_length, Hframes. done.
    + intros Hmod. apply Nat2Z.inj.
      rewrite decode_stream_length, Hframes.
      change bytesOfFrames with bytesPerFrame.
      rewrite (Z.div_mod (Z.of_nat (length pcm)) bytesPerFrame) at 2 by lia.
      lia.
  - lia.
  - rewrite Hframes. change bytesOfFrames with bytesPerFrame. lia.
Qed.

(** An instance: 700 bytes of samples are two frames and 60 bytes more;
    they come back as 640 bytes. *)
Lemma encode_then_decode_length_witness :
  ∃ r1 h1 log1 r2 h2 log2 out,
    encodeLC3 (lib := Samples.counting_codec) Samples.stale
      {[ Samples.lc3Data := replicate 700 x01 ]} Samples.lc3Data
    = Ok (r1, h1, log1)
    ∧ decodeLC3 (lib := Samples.counting_codec) Samples.stale h1 r1
      = Ok (r2, h2, log2)
    ∧ h2 !! r2 = Some out
    ∧ Z.of_nat (length out) = 640.
Proof.
  destruct (encode_then_decode_length (lib := Samples.counting_codec)
              (ok := counting_codec_contract) Samples.stale
              {[ Samples.lc3Data := replicate 700 x01 ]}
              Samples.lc3Data (replicate 700 x01))
    as (r1 & h1 & log1 & r2 & h2 & log2 & out & He & Hd & Hout & Hl & _);
    [by vm_compute..|].
  exists r1, h1, log1, r2, h2, log2, out. split_and!; [done..|].
  rewrite Hl. by vm_compute.
Defined.

(** X8. Decoding and then encoding what came out: both calls succeed, and
    the array encoded has as many bytes as the whole frames of the input,
    so as many as the input itself when it is whole frames. *)
Theorem decode_then_encode_length `{lib : Lc3} {ok : Lc3Contract lib}
    (uninit : nat → byte) (h : gmap jarray (list byte)) (a : jarray)
    (input : list byte) :
  h !! a = Some input →
  Z.of_nat (length input) ≤ INT_MAX →
  Z.of_nat (length input) / 20 * bytesOfFrames ≤ INT_MAX →
  ∃ r1 h1 log1 r2 h2 log2 out,
    decodeLC3 uninit h a = Ok (r1, h1, log1)
    ∧ encodeLC3 uninit h1 r1 = Ok (r2, h2, log2)
    ∧ h2 !! r2 = Some out
    ∧ Z.of_nat (length out) = Z.of_nat (length input) / 20 * 20
    ∧ (Z.of_nat (length input) `mod` 20 = 0 →
       length out = length input).
Proof.
  intros Hin Hlen Hfit. pose proof bytesPerFrame_range as HB.
  rewrite (decodeLC3_run uninit h a input Hin Hlen Hfit).
  pose proof (decode_stream_length uninit input) as Hdec.
  unfold output_byte_count in Hdec.
  change bytesOfFrames with bytesPerFrame in Hdec, Hfit.
  assert (0 ≤ Z.of_nat (length input) / 20) as Hq
    by (apply Z.div_pos; lia).
  pose proof (Z.mul_div_le (Z.of_nat (length input)) 20) as Hle.
  assert (Z.of_nat (length (decode_stream uninit input)) / bytesPerFrame
          = Z.of_nat (length input) / 20) as Hframes
    by (rewrite Hdec; apply Z.div_mul; lia).
  eexists (fresh (dom h)),
    (<[fresh (dom h) := decode_stream uninit input]> h), _, _, _, _, _.
  rewrite (encodeLC3_run uninit (decode_stream uninit input) _ _
             (lookup_insert_eq _ _ _)).
  - split_and!; [done|done|apply lookup_insert_eq|..].
    + rewrite encode_stream_length, Hframes. done.
    + intros Hmod. apply Nat2Z.inj.
      rewrite encode_stream_length, Hframes. unfold encodedFrameSize.
      rewrite (Z.div_mod (Z.of_nat (length input)) 20) at 2 by lia.
      lia.
  - lia.
  - rewrite Hframes. unfold encodedFrameSize. lia.
Qed.

(** An instance: the 25-byte input decodes to 320 bytes, which encode to
    20. *)
Lemma decode_then_encode_length_witness :
  ∃ r1 h1 log1 r2 h2 log2 out,
    decodeLC3 (lib := Samples.counting_codec) Samples.stale
      Samples.heap25 Samples.lc3Data = Ok (r1, h1, log1)
    ∧ encodeLC3 (lib := Samples.counting_codec) Samples.stale h1 r1
      = Ok (r2, h2, log2)
    ∧ h2 !! r2 = Some out
    ∧ Z.of_nat (length out) = 20.
Proof.
  destruct (decode_then_encode_length (lib := Samples.counting_codec)
              (ok := counting_codec_contract) Samples.stale
              Samples.heap25 Samples.lc3Data Samples.one_frame_and_five)
    as (r1 & h1 & log1 & r2 & h2 & log2 & out & He & Hd & Hout & Hl & _);
    [by vm_compute..|].
  exists r1, h1, log1, r2, h2, log2, out. split_and!; [done..|].
  rewrite Hl. by vm_compute.
Defined.

(** ** The first frames of a stream *)

Lemma frames_take {A : Type} (f : nat → list A) (c n k : nat) :
  (∀ j, (j < n)%nat → length (f j) = c) → (k ≤ n)%nat →
  take (k * c) (mjoin (f <$> seq 0 n)) = mjoin (f <$> seq 0 k).
Proof.
  intros Hf Hk. replace n with (k + (n - k))%nat at 1 by lia.
  rewrite seq_app, fmap_app, join_app.
  apply take_app_length'. symmetry. apply frames_length.
  intros j Hj. apply Hf. lia.
Qed.

Lemma log_take (first last : event) (f : nat → event) (n k : nat) :
  (k ≤ n)%nat →
  take (S k) (first :: (f <$> seq 0 n) ++ [last]) = first :: (f <$> seq 0 k).
Proof.
  intros Hk. simpl. f_equal.
  rewrite take_app_le by (rewrite length_fmap, length_seq; lia).
  rewrite <- fmap_take, take_seq. by rewrite Nat.min_l.
Qed.

(** X9. What [decodeLC3] makes of the first [k] frames of an input does
    not depend on what follows them: for two inputs with the same first
    [k] frames, the first [k] output frames are the same, and so are the
    setup and the first [k] codec calls with what they returned. *)
Theorem decoded_prefix `{lib : Lc3} {ok : Lc3Contract lib}
    (uninit : nat → byte) (h1 h2 : gmap jarray (list byte)) (a1 a2 : jarray)
    (in1 in2 : list byte) (k : nat) :
  h1 !! a1 = Some in1 → h2 !! a2 = Some in2 →
  Z.of_nat (length in1) ≤ INT_MAX →
  Z.of_nat (length in1) / 20 * bytesOfFrames ≤ INT_MAX →
  Z.of_nat (length in2) ≤ INT_MAX →
  Z.of_nat (length in2) / 20 * bytesOfFrames ≤ INT_MAX →
  (k ≤ frame_count (Z.of_nat (length in1)) 20)%nat →
  (k ≤ frame_count (Z.of_nat (length in2)) 20)%nat →
  take (k * 20) in1 = take (k * 20) in2 →
  ∃ r1 h1' log1 out1 r2 h2' log2 out2,
    decodeLC3 uninit h1 a1 = Ok (r1, h1', log1) ∧ h1' !! r1 = Some out1
    ∧ decodeLC3 uninit h2 a2 = Ok (r2, h2', log2) ∧ h2' !! r2 = Some out2
    ∧ take (k * Z.to_nat bytesOfFrames) out1
      = take (k * Z.to_nat bytesOfFrames) out2
    ∧ take (S k) log1 = take (S k) log2.
Proof.
  intros Hin1 Hin2 Hlen1 Hfit1 Hlen2 Hfit2 Hk1 Hk2 Hsame.
  rewrite (decodeLC3_run uninit h1 a1 in1 Hin1 Hlen1 Hfit1).
  rewrite (decodeLC3_run uninit h2 a2 in2 Hin2 Hlen2 Hfit2).
  assert (∀ j, (j < k)%nat →
            decode_call uninit in1 j = decode_call uninit in2 j) as Hcall.
  { intros j Hj.
    rewrite <- (decode_call_take uninit in1 (k * 20) j) by lia.
    rewrite Hsame. apply decode_call_take. lia. }
  do 8 eexists.
  split_and!; [done|apply lookup_insert_eq|done|apply lookup_insert_eq|..].
  - unfold decode_stream.
    rewrite !frames_take
      by (done || intros; apply decoded_frame_length).
    f_equal. apply fmap_seq_ext. intros j Hj.
    unfold decoded_frame. by rewrite Hcall.
  - rewrite !log_take by done. f_equal. apply fmap_seq_ext. intros j Hj.
    unfold decode_event. by rewrite Hcall.
Qed.

(** An instance: 25 bytes, and their first frame followed by 30 other
    bytes. *)
Lemma decoded_prefix_witness :
  ∃ r1 h1' log1 out1 r2 h2' log2 out2,
    decodeLC3 (lib := Samples.counting_codec) Samples.stale
      Samples.heap25 Samples.lc3Data = Ok (r1, h1', log1)
    ∧ h1' !! r1 = Some out1
    ∧ decodeLC3 (lib := Samples.counting_codec) Samples.stale
        {[ 9%positive := replicate 20 x01 ++ replicate 30 x02 ]} 9%positive
      = Ok (r2, h2', log2)
    ∧ h2' !! r2 = Some out2
    ∧ take 320 out1 = take 320 out2
    ∧ take 2 log1 = take 2 log2.
Proof.
  apply (decoded_prefix (lib := Samples.counting_codec)
           (ok := counting_codec_contract) Samples.stale
           Samples.heap25
           {[ 9%positive := replicate 20 x01 ++ replicate 30 x02 ]}
           Samples.lc3Data 9%positive Samples.one_frame_and_five
           (replicate 20 x01 ++ replicate 30 x02) 1);
    first [by vm_compute|vm_compute; lia].
Defined.

(** X10. The same for [encodeLC3]: for two sample buffers with the same
    first [k] frames, the first [k] encoded frames are the same, and so are
    the setup and the first [k] codec calls. *)
Theorem encoded_prefix `{lib : Lc3} {ok : Lc3Contract lib}
    (uninit : nat → byte) (h1 h2 : gmap jarray (list byte)) (a1 a2 : jarray)
    (in1 in2 : list byte) (k : nat) :
  h1 !! a1 = Some in1 → h2 !! a2 = Some in2 →
  Z.of_nat (length in1) ≤ INT_MAX →
  Z.of_nat (length in1) / bytesPerFrame * 20 ≤ INT_MAX →
  Z.of_nat (length in2) ≤ INT_MAX →
  Z.of_nat (length in2) / bytesPerFrame * 20 ≤ INT_MAX →
  (k ≤ frame_count (Z.of_nat (length in1)) bytesPerFrame)%nat →
  (k ≤ frame_count (Z.of_nat (length in2)) bytesPerFrame)%nat →
  take (k * Z.to_nat bytesPerFrame) in1
  = take (k * Z.to_nat bytesPerFrame) in2 →
  ∃ r1 h1' log1 out1 r2 h2' log2 out2,
    encodeLC3 uninit h1 a1 = Ok (r1, h1', log1) ∧ h1' !! r1 = Some out1
    ∧ encodeLC3 uninit h2 a2 = Ok (r2, h2', log2) ∧ h2' !! r2 = Some out2
    ∧ take (k * 20) out1 = take (k * 20) out2
    ∧ take (S k) log1 = take (S k) log2.
Proof.
  intros Hin1 Hin2 Hlen1 Hfit1 Hlen2 Hfit2 Hk1 Hk2 Hsame.
  rewrite (encodeLC3_run uninit in1 h1 a1 Hin1 Hlen1 Hfit1).
  rewrite (encodeLC3_run uninit in2 h2 a2 Hin2 Hlen2 Hfit2).
  assert (∀ j, (j < k)%nat →
            encode_call uninit in1 j = encode_call uninit in2 j) as Hcall.
  { intros j Hj.
    assert (j * Z.to_nat bytesPerFrame + Z.to_nat bytesPerFrame
            ≤ k * Z.to_nat bytesPerFrame)%nat as Hle
      by (transitivity (S j * Z.to_nat bytesPerFrame)%nat;
          [simpl; lia|apply Nat.mul_le_mono_r; lia]).
    rewrite <- (encode_call_take uninit in1 (k * Z.to_nat bytesPerFrame) j)
      by done.
    rewrite Hsame. by apply encode_call_take. }
  do 8 eexists.
  split_and!; [done|apply lookup_insert_eq|done|apply lookup_insert_eq|..].
  - unfold encode_stream.
    rewrite !frames_take
      by (done || intros; apply encoded_frame_length).
    f_equal. apply fmap_seq_ext. intros j Hj.
    unfold encoded_frame. by rewrite Hcall.
  - rewrite !log_take by done. f_equal. apply fmap_seq_ext. intros j Hj.
    unfold encode_event. by rewrite Hcall.
Qed.

(** An instance: one frame of samples, alone and followed by 100 other
    bytes. *)
Lemma encoded_prefix_witness :
  ∃ r1 h1' log1 out1 r2 h2' log2 out2,
    encodeLC3 (lib := Samples.counting_codec) Samples.stale
      {[ 8%positive := replicate 320 x01 ]} 8%positive = Ok (r1, h1', log1)
    ∧ h1' !! r1 = Some out1
    ∧ encodeLC3 (lib := Samples.counting_codec) Samples.stale
        {[ 9%positive := replicate 320 x01 ++ replicate 100 x02 ]} 9%positive
      = Ok (r2, h2', log2)
    ∧ h2' !! r2 = Some out2
    ∧ take 20 out1 = take 20 out2
    ∧ take 2 log1 = take 2 log2.
Proof.
  apply (encoded_prefix (lib := Samples.counting_codec)
           (ok := counting_codec_contract) Samples.stale
           {[ 8%positive := replicate 320 x01 ]}
           {[ 9%positive := replicate 320 x01 ++ replicate 100 x02 ]}
           8%positive 9%positive (replicate 320 x01)
           (replicate 320 x01 ++ replicate 100 x02) 1);
    first [by vm_compute|vm_compute; lia].
Defined.

(** ** The denoise bridge *)

(** [rnNoise] on a live handle and a frame of at least the frame size of
    the denoiser, for a library that stores a whole frame. *)
Lemma rnNoise_run `{rn : RNNoise} (w : world) (st : Z) (input : jarray)
    (frame : list jfloat) (s : DenoiseState) :
  w_arrays w !! input = Some frame →
  w_states w !! st = Some s →
  0 ≤ rnnoise_frame_size ≤ Z.of_nat (length frame) →
  let call :=
    rnnoise_process_frame s (take (Z.to_nat rnnoise_frame_size) frame) in
  length call.1.2 = Z.to_nat rnnoise_frame_size →
  rnNoise w st input
  = ([EvProcessFrame st inputArray inputArray],
     Ok (input,
         {| w_arrays :=
              <[input := call.1.2 ++ drop (Z.to_nat rnnoise_frame_size) frame]>
                (w_arrays w);
            w_states := <[st := call.1.1]> (w_states w) |})).
Proof.
  intros Hin Hst Hlen call Hout.
  unfold rnNoise, GetArrayElements. rewrite Hin. f_equal.
  unfold process_frame_at. rewrite Hst, !lookup_singleton_eq.
  unfold read_bytes. pass_checks.
  change (Z.to_nat 0) with 0%nat. rewrite drop_0.
  cbn [mbind result_bind]. fold call.
  destruct call as [[s' y] v]. cbn [fst snd] in Hout |- *.
  rewrite write_bytes_start by lia.
  cbn [mbind result_bind]. rewrite lookup_insert_eq.
  unfold overlay. by rewrite Hout.
Qed.

(** X12. For a frame longer than the frame size [n] of the denoiser,
    [rnNoise] gives the library the first [n] samples only, puts the [n]
    samples it stores in their place, and leaves the samples after them as
    they were. *)
Theorem denoise_long_frame `{rn : RNNoise} (w : world) (st : Z)
    (input : jarray) (frame : list jfloat) (s : DenoiseState) :
  w_arrays w !! input = Some frame →
  w_states w !! st = Some s →
  0 ≤ rnnoise_frame_size ≤ Z.of_nat (length frame) →
  let n := Z.to_nat rnnoise_frame_size in
  let call := rnnoise_process_frame s (take n frame) in
  length call.1.2 = n →
  ∃ w' new,
    rnNoise w st input
    = ([EvProcessFrame st inputArray inputArray], Ok (input, w'))
    ∧ w_arrays w' !! input = Some new
    ∧ take n new = call.1.2
    ∧ drop n new = drop n frame
    ∧ w_states w' !! st = Some call.1.1.
Proof.
  intros Hin Hst Hlen n call Hout.
  rewrite (rnNoise_run w st input frame s Hin Hst Hlen Hout).
  do 2 eexists. split; [done|]. cbn [w_arrays w_states].
  rewrite !lookup_insert_eq. split_and!; [done|..|done].
  - by apply take_app_length'.
  - by apply drop_app_length'.
Qed.

(** An instance: of 481 samples the first 480 are silenced and the last
    is kept. *)
Lemma denoise_long_frame_witness :
  ∃ w' new,
    rnNoise Samples.long_world Samples.handle Samples.samples
    = ([EvProcessFrame Samples.handle inputArray inputArray],
       Ok (Samples.samples, w'))
    ∧ w_arrays w' !! Samples.samples = Some new
    ∧ take 480 new = replicate 480 0
    ∧ drop 480 new = [7].
Proof.
  destruct (denoise_long_frame (rn := Samples.muting_denoiser)
              Samples.long_world Samples.handle Samples.samples
              (replicate 481 7) 0)
    as (w' & new & Hrun & Hnew & Htake & Hdrop & _); [by vm_compute..|].
  by exists w', new.
Defined.

(** X13. For a frame shorter than the frame size of the denoiser nothing
    stops the call: the library is called on the frame, and its read of a
    whole frame leaves the buffer, which is the fault of the call. *)
Theorem denoise_short_frame `{rn : RNNoise} (w : world) (st : Z)
    (input : jarray) (frame : list jfloat) (s : DenoiseState) :
  w_arrays w !! input = Some frame →
  w_states w !! st = Some s →
  Z.of_nat (length frame) < rnnoise_frame_size →
  rnNoise w st input
  = ([EvProcessFrame st inputArray inputArray], Err OutOfBounds).
Proof.
  intros Hin Hst Hlen.
  unfold rnNoise, GetArrayElements. rewrite Hin. f_equal.
  unfold process_frame_at. rewrite Hst, !lookup_singleton_eq.
  unfold read_bytes.
  destruct (Z.leb_spec (0 + rnnoise_frame_size) (Z.of_nat (length frame)));
    [lia|].
  by rewrite andb_false_r.
Qed.

(** An instance: the frame of three samples. *)
Lemma denoise_short_frame_witness :
  rnNoise Samples.short_world Samples.handle Samples.samples
  = ([EvProcessFrame Samples.handle inputArray inputArray], Err OutOfBounds).
Proof.
  apply (denoise_short_frame (rn := Samples.muting_denoiser)
           Samples.short_world Samples.handle Samples.samples [1; 2; 3] 0);
    by vm_compute.
Defined.

(** ** Denoiser handles *)

(** X15. A whole session: on a handle just created, [rnNoise] on a frame
    of the frame size returns the array, denoised from the state the library
    creates, and once the handle is destroyed the world differs from the
    one before the session by that array only. *)
Theorem denoise_session `{rn : RNNoise} (w : world) (input : jarray)
    (frame : list jfloat) :
  w_arrays w !! input = Some frame →
  Z.of_nat (length frame) = rnnoise_frame_size →
  length (rnnoise_process_frame rnnoise_create frame).1.2 = length frame →
  let st := (createRNNoiseState w).1 in
  let w1 := (createRNNoiseState w).2 in
  ∃ w2,
    rnNoise w1 st input
    = ([EvProcessFrame st inputArray inputArray], Ok (input, w2))
    ∧ destroyRNNoiseState w2 st
      = {| w_arrays :=
             <[input := (rnnoise_process_frame rnnoise_create frame).1.2]>
               (w_arrays w);
           w_states := w_states w |}.
Proof.
  intros Hin Hlen Hout st w1.
  assert (w_states w !! st = None) as Hfresh
    by apply not_elem_of_dom, is_fresh.
  assert (take (Z.to_nat rnnoise_frame_size) frame = frame) as Htake
    by (apply take_ge; lia).
  eexists. split.
  - apply (rnNoise_run w1 st input frame rnnoise_create); [done| |lia|].
    + apply lookup_insert_eq.
    + rewrite Htake. lia.
  - unfold destroyRNNoiseState. cbn [w_arrays w_states]. rewrite Htake.
    rewrite drop_ge, app_nil_r by lia. f_equal.
    rewrite delete_insert_eq.
    unfold w1. cbn [createRNNoiseState snd w_states].
    rewrite delete_insert_eq. by apply delete_id.
Qed.

(** An instance: a session of the muting denoiser on 480 samples. *)
Lemma denoise_session_witness :
  ∃ w2,
    rnNoise (createRNNoiseState Samples.full_world).2
      (createRNNoiseState Samples.full_world).1 Samples.samples
    = ([EvProcessFrame (createRNNoiseState Samples.full_world).1
          inputArray inputArray],
       Ok (Samples.samples, w2))
    ∧ destroyRNNoiseState w2 (createRNNoiseState Samples.full_world).1
      = {| w_arrays := <[Samples.samples := replicate 480 0]>
                         (w_arrays Samples.full_world);
           w_states := w_states Samples.full_world |}.
Proof.
  apply (denoise_session (rn := Samples.muting_denoiser)
           Samples.full_world Samples.samples (replicate 480 7));
    by vm_compute.
Defined.

(** X16. The state of a denoiser lasts from one call to the next, and the
    samples are denoised where they are: a second [rnNoise] on the same
    handle and the same array gives the library the samples the first call
    stored, in the state the first call left. *)
Theorem denoise_twice `{rn : RNNoise} (w : world) (st : Z) (input : jarray)
    (frame : list jfloat) (s : DenoiseState) :
  w_arrays w !! input = Some frame →
  w_states w !! st = Some s →
  Z.of_nat (length frame) = rnnoise_frame_size →
  let first := rnnoise_process_frame s frame in
  let second := rnnoise_process_frame first.1.1 first.1.2 in
  length first.1.2 = length frame →
  length second.1.2 = length frame →
  ∃ w1,
    rnNoise w st input
    = ([EvProcessFrame st inputArray inputArray], Ok (input, w1))
    ∧ rnNoise w1 st input
      = ([EvProcessFrame st inputArray inputArray],
         Ok (input,
             {| w_arrays := <[input := second.1.2]> (w_arrays w);
                w_states := <[st := second.1.1]> (w_states w) |})).
Proof.
  intros Hin Hst Hlen first second Hout1 Hout2.
  assert (∀ l : list jfloat, length l = length frame →
            take (Z.to_nat rnnoise_frame_size) l = l
            ∧ drop (Z.to_nat rnnoise_frame_size) l = []) as Hwhole.
  { intros l Hl. split; [apply take_ge|apply drop_ge]; lia. }
  destruct (Hwhole frame eq_refl) as [Htake Hdrop].
  destruct (Hwhole first.1.2 Hout1) as [Htake1 Hdrop1].
  eexists. split.
  - apply (rnNoise_run w st input frame s); [done|done|lia|].
    rewrite Htake. fold first. lia.
  - rewrite Htake, Hdrop, app_nil_r. fold first.
    rewrite (rnNoise_run _ st input first.1.2 first.1.1).
    + cbn [w_arrays w_states]. rewrite Htake1, Hdrop1, app_nil_r.
      fold second. by rewrite !insert_insert_eq.
    + apply lookup_insert_eq.
    + apply lookup_insert_eq.
    + lia.
    + rewrite Htake1. fold second. lia.
Qed.

(** An instance: the muting denoiser, twice on 480 samples. *)
Lemma denoise_twice_witness :
  ∃ w1,
    rnNoise Samples.full_world Samples.handle Samples.samples
    = ([EvProcessFrame Samples.handle inputArray inputArray],
       Ok (Samples.samples, w1))
    ∧ rnNoise w1 Samples.handle Samples.samples
      = ([EvProcessFrame Samples.handle inputArray inputArray],
         Ok (Samples.samples,
             {| w_arrays := <[Samples.samples := replicate 480 0]>
                              (w_arrays Samples.full_world);
                w_states := <[Samples.handle := 2]>
                              (w_states Samples.full_world) |})).
Proof.
  apply (denoise_twice (rn := Samples.muting_denoiser)
           Samples.full_world Samples.handle Samples.samples
           (replicate 480 7) 0);
    by vm_compute.
Defined.

(** ** Encoding any array *)

(** X17. With frames of samples of 20 bytes or more (LC3's have 320) the
    output size of [encodeLC3] cannot overflow: the call succeeds on every
    Java array, and what it returns is never longer than what it was
    given. *)
Theorem encode_any_array `{lib : Lc3} {ok : Lc3Contract lib}
    (uninit : nat → byte) (h : gmap jarray (list byte)) (a : jarray)
    (input : list byte) :
  20 ≤ bytesPerFrame →
  h !! a = Some input →
  Z.of_nat (length input) ≤ INT_MAX →
  ∃ r h' log out,
    encodeLC3 uninit h a = Ok (r, h', log) ∧ h' !! r = Some out
    ∧ Z.of_nat (length out) = Z.of_nat (length input) / bytesPerFrame * 20
    ∧ (length out ≤ length input)%nat.
Proof.
  intros HB Hin Hlen.
  pose proof (encode_size_fits (Z.of_nat (length input)) HB ltac:(lia))
    as Hfit.
  rewrite (encodeLC3_run uninit input h a Hin Hlen Hfit).
  do 4 eexists. split_and!; [done|apply lookup_insert_eq|..].
  - apply encode_stream_length.
  - apply Nat2Z.inj_le. rewrite encode_stream_length.
    unfold encodedFrameSize.
    pose proof (Z.mul_div_le (Z.of_nat (length input)) bytesPerFrame).
    assert (0 ≤ Z.of_nat (length input) / bytesPerFrame)
      by (apply Z.div_pos; lia).
    nia.
Qed.

(** An instance: 700 bytes of samples encode to 40 bytes. *)
Lemma encode_any_array_witness :
  ∃ r h' log out,
    encodeLC3 (lib := Samples.counting_codec) Samples.stale
      {[ Samples.lc3Data := replicate 700 x01 ]} Samples.lc3Data
    = Ok (r, h', log)
    ∧ h' !! r = Some out
    ∧ Z.of_nat (length out) = 40.
Proof.
  destruct (encode_any_array (lib := Samples.counting_codec)
              (ok := counting_codec_contract) Samples.stale
              {[ Samples.lc3Data := replicate 700 x01 ]}
              Samples.lc3Data (replicate 700 x01))
    as (r & h' & log & out & Hrun & Hout & Hlen & _); [by vm_compute..|].
  exists r, h', log, out. split_and!; [done..|].
  rewrite Hlen. by vm_compute.
Defined.
